(** * ChessVar: a "King of the Hill" chess engine

    A shallow embedding of [ChessVar.py] (classes [ChessVar], [Board] and
    [Piece]) and the properties of its move protocol.

    Python values are rendered as follows.
    - A [str] is a [string]; a board cell is a [str] of one character, one of
      the thirteen symbols [" "], [PNBRQK] (white) and [pnbrqk] (black).
    - An [int] is a [Z].
    - The board is the nested list [list (list string)], read and written by
      index as Python does (negative indices count from the end, an index out
      of range raises [IndexError]).
    - The string constants ["UNFINISHED"], ["WHITE_WON"], ["BLACK_WON"] and
      ["WHITE"], ["BLACK"] are the constructors of two enumerations.
    - A method that mutates [self] returns the new object next to its result.
    - A call either returns, raises, or (for the one [while] loop) runs out
      of the iterations it was given: type [result]. *)

From Stdlib Require Import ZArith String Ascii List Lia DecimalString DecimalPos.
From stdpp Require Import base list strings.

Open Scope string_scope.
Open Scope Z_scope.

(** ** Outcomes of a call *)

Inductive exn : Type := TypeError | IndexError | ValueError.

Inductive result (A : Type) : Type :=
| Ok (a : A)
| Raise (e : exn)
| OutOfFuel.

Arguments Ok {A} a.
Arguments Raise {A} e.
Arguments OutOfFuel {A}.

Definition bind {A B : Type} (m : result A) (k : A -> result B) : result B :=
  match m with
  | Ok a => k a
  | Raise e => Raise e
  | OutOfFuel => OutOfFuel
  end.

Notation "'let*' x ':=' m 'in' k" := (bind m (fun x => k))
  (at level 10, x name, m at level 100, k at level 200).

(** ** Python built-ins used by the program *)

Module Py.

(** [c in s] for a one-character [c]. *)
Fixpoint char_in (c : ascii) (s : string) : bool :=
  match s with
  | EmptyString => false
  | String d s' => Ascii.eqb c d || char_in c s'
  end.

Definition ord (c : ascii) : Z := Z.of_N (N_of_ascii c).

(** [chr(n)]: [ValueError] outside the code-point range.  A code point
    above 255 has no 8-bit rendering; it is no file letter and no digit,
    which is all the program asks of it, and is rendered ["?"]. *)
Definition chr (n : Z) : result string :=
  if (n <? 0) || (1114111 <? n) then Raise ValueError
  else if n <? 256 then Ok (String (ascii_of_N (Z.to_N n)) "")
  else Ok "?".

(** [str(n)] on an integer: its decimal numeral. *)
Definition str (n : Z) : string := NilZero.string_of_int (Z.to_int n).

(** [int(c)] on a decimal digit. *)
Definition int (c : ascii) : Z := ord c - ord "0".

Definition is_upper_char (c : ascii) : bool :=
  (ord "A" <=? ord c) && (ord c <=? ord "Z").

Definition is_lower_char (c : ascii) : bool :=
  (ord "a" <=? ord c) && (ord c <=? ord "z").

Fixpoint has_upper (s : string) : bool :=
  match s with
  | EmptyString => false
  | String c s' => is_upper_char c || has_upper s'
  end.

Fixpoint has_lower (s : string) : bool :=
  match s with
  | EmptyString => false
  | String c s' => is_lower_char c || has_lower s'
  end.

(** [s.isupper()]: some cased character, and no lowercase one. *)
Definition isupper (s : string) : bool := has_upper s && negb (has_lower s).

(** [s.islower()]: some cased character, and no uppercase one. *)
Definition islower (s : string) : bool := has_lower s && negb (has_upper s).

Definition lower_char (c : ascii) : ascii :=
  if is_upper_char c then ascii_of_N (N_of_ascii c + 32) else c.

(** [s.lower()] *)
Fixpoint lower (s : string) : string :=
  match s with
  | EmptyString => EmptyString
  | String c s' => String (lower_char c) (lower s')
  end.

(** Truth value of a [str]: false for the empty string only. *)
Definition truthy (s : string) : bool := negb (String.eqb s "").

(** [l[i]] *)
Definition getitem {A : Type} (l : list A) (i : Z) : result A :=
  let n := Z.of_nat (length l) in
  let j := if i <? 0 then i + n else i in
  if (0 <=? j) && (j <? n) then
    match l !! Z.to_nat j with
    | Some v => Ok v
    | None => Raise IndexError
    end
  else Raise IndexError.

(** [l[i] = v] *)
Definition setitem {A : Type} (l : list A) (i : Z) (v : A) : result (list A) :=
  let n := Z.of_nat (length l) in
  let j := if i <? 0 then i + n else i in
  if (0 <=? j) && (j <? n) then Ok (<[Z.to_nat j := v]> l)
  else Raise IndexError.

End Py.

(** ** class Board *)

Abbreviation Grid := (list (list string)).

(** [Board.__init__] *)
Definition Board_init : Grid :=
  [ ["r"; "n"; "b"; "q"; "k"; "b"; "n"; "r"];
    ["p"; "p"; "p"; "p"; "p"; "p"; "p"; "p"];
    [" "; " "; " "; " "; " "; " "; " "; " "];
    [" "; " "; " "; " "; " "; " "; " "; " "];
    [" "; " "; " "; " "; " "; " "; " "; " "];
    [" "; " "; " "; " "; " "; " "; " "; " "];
    ["P"; "P"; "P"; "P"; "P"; "P"; "P"; "P"];
    ["R"; "N"; "B"; "Q"; "K"; "B"; "N"; "R"] ].

(** [Board.is_within_bounds].  [len(position) == 2] guards both subscripts,
    so the conjunction is a test on the two-character shape. *)
Definition is_within_bounds (position : string) : bool :=
  match position with
  | String c0 (String c1 EmptyString) =>
      Py.char_in c0 "abcdefgh" && Py.char_in c1 "12345678"
  | _ => false
  end.

(** [Board.notation_to_index]: [None] is Python's [None]. *)
Definition notation_to_index (notation : string) : option (Z * Z) :=
  match notation with
  | String col (String row EmptyString) =>
      if negb (Py.char_in col "abcdefgh") || negb (Py.char_in row "12345678")
      then None
      else Some (8 - Py.int row, Py.ord col - Py.ord "a")
  | _ => None
  end.

(** [Board.get_piece_at].  [x, y = Board.notation_to_index(position)]
    unpacks the result: unpacking [None] raises [TypeError]. *)
Definition get_piece_at (board : Grid) (position : string) : result string :=
  match notation_to_index position with
  | None => Raise TypeError
  | Some (x, y) =>
      let* row := Py.getitem board x in
      Py.getitem row y
  end.

(** [Board.move_piece].  Both unpackings come first; the test
    [from_x is None or to_x is None] then sees two integers and never
    holds.  The method's own return value is [None] and is not used by its
    caller: the embedding returns the grid after the two assignments. *)
Definition move_piece (board : Grid) (current_square next_square : string)
  : result Grid :=
  match notation_to_index current_square with
  | None => Raise TypeError
  | Some (from_x, from_y) =>
      match notation_to_index next_square with
      | None => Raise TypeError
      | Some (to_x, to_y) =>
          let* from_row := Py.getitem board from_x in
          let* moved := Py.getitem from_row from_y in
          let* to_row := Py.getitem board to_x in
          let* to_row' := Py.setitem to_row to_y moved in
          let* board1 := Py.setitem board to_x to_row' in
          let* from_row1 := Py.getitem board1 from_x in
          let* from_row1' := Py.setitem from_row1 from_y " " in
          Py.setitem board1 from_x from_row1'
      end
  end.

Inductive Color : Type := WHITE | BLACK.

Definition Color_eqb (a b : Color) : bool :=
  match a, b with
  | WHITE, WHITE | BLACK, BLACK => true
  | _, _ => false
  end.

(** [Board.king_exists] *)
Definition king_exists (board : Grid) (color : Color) : bool :=
  let king_symbol := if Color_eqb color WHITE then "K" else "k" in
  existsb (fun row => existsb (String.eqb king_symbol) row) board.

(** ** class Piece *)

Record Piece : Type := mkPiece {
  _piece_type : string;
  _piece_lower : string
}.

(** [Piece.__init__] *)
Definition Piece_init (piece_type : string) : Piece :=
  {| _piece_type := piece_type; _piece_lower := Py.lower piece_type |}.

(** The [while] loop of [Piece._path_is_clear], started at [(x, y)].
    [fuel] bounds the number of times the body runs. *)
Fixpoint path_walk (fuel : nat) (x y step_x step_y to_x to_y : Z)
  (board : Grid) : result bool :=
  if negb ((x =? to_x) && (y =? to_y)) then
    match fuel with
    | O => OutOfFuel
    | S fuel' =>
        let* file := Py.chr (y + Py.ord "a") in
        let* piece := get_piece_at board (file ++ Py.str (8 - x)) in
        if negb (String.eqb piece " ") then Ok false
        else path_walk fuel' (x + step_x) (y + step_y) step_x step_y to_x to_y board
    end
  else Ok true.

Definition _path_is_clear_fuel (fuel : nat) (from_x from_y to_x to_y : Z)
  (board : Grid) : result bool :=
  let distance_x := to_x - from_x in
  let distance_y := to_y - from_y in
  let step_x := if distance_x =? 0 then 0 else if distance_x >? 0 then 1 else -1 in
  let step_y := if distance_y =? 0 then 0 else if distance_y >? 0 then 1 else -1 in
  path_walk fuel (from_x + step_x) (from_y + step_y) step_x step_y to_x to_y board.

(** Nine iterations are all the loop can ever make: a walk that misses its
    destination leaves the eight-by-eight board, and the first query off
    the board raises (lemma [path_fuel_enough] below). *)
Definition path_fuel : nat := 9.

(** [Piece._path_is_clear] *)
Definition _path_is_clear (from_x from_y to_x to_y : Z) (board : Grid)
  : result bool :=
  _path_is_clear_fuel path_fuel from_x from_y to_x to_y board.

(** [Piece.is_valid_move] *)
Definition is_valid_move (self : Piece) (current_square next_square : string)
  (board : Grid) : result bool :=
  match notation_to_index current_square with
  | None => Raise TypeError
  | Some (from_x, from_y) =>
  match notation_to_index next_square with
  | None => Raise TypeError
  | Some (to_x, to_y) =>
  let distance_x := to_x - from_x in
  let distance_y := to_y - from_y in
  let* piece_at_destination := get_piece_at board next_square in
  if negb (String.eqb piece_at_destination " ")
     && ((Py.isupper (_piece_type self) && Py.isupper piece_at_destination)
         || (Py.islower (_piece_type self) && Py.islower piece_at_destination))
  then Ok false
  else if String.eqb (_piece_lower self) "p" then
    let direction := if Py.isupper (_piece_type self) then -1 else 1 in
    let start_row := if Py.isupper (_piece_type self) then 6 else 1 in
    if (distance_y =? 0) && (distance_x =? direction) then
      let* target := get_piece_at board next_square in
      Ok (String.eqb target " ")
    else if (distance_y =? 0) && (distance_x =? 2 * direction)
            && (from_x =? start_row) then
      let* file := Py.chr (from_y + Py.ord "a") in
      let between_square := file ++ Py.str (8 - (from_x + direction)) in
      let* between := get_piece_at board between_square in
      if String.eqb between " " then
        let* target := get_piece_at board next_square in
        Ok (String.eqb target " ")
      else Ok false
    else if (Z.abs distance_y =? 1) && (distance_x =? direction) then
      Ok (negb (String.eqb piece_at_destination " ")
          && negb (Bool.eqb (Py.isupper piece_at_destination)
                            (Py.isupper (_piece_type self))))
    else Ok false
  else if String.eqb (_piece_lower self) "r" then
    if (from_x =? to_x) || (from_y =? to_y) then
      _path_is_clear from_x from_y to_x to_y board
    else Ok false
  else if String.eqb (_piece_lower self) "b" then
    if Z.abs distance_x =? Z.abs distance_y then
      _path_is_clear from_x from_y to_x to_y board
    else Ok false
  else if String.eqb (_piece_lower self) "n" then
    if ((Z.abs distance_x =? 2) && (Z.abs distance_y =? 1))
       || ((Z.abs distance_x =? 1) && (Z.abs distance_y =? 2)) then
      Ok (String.eqb piece_at_destination " "
          || negb (Bool.eqb (Py.isupper piece_at_destination)
                            (Py.isupper (_piece_type self))))
    else Ok false
  else if String.eqb (_piece_lower self) "q" then
    if (from_x =? to_x) || (from_y =? to_y)
       || (Z.abs distance_x =? Z.abs distance_y) then
      _path_is_clear from_x from_y to_x to_y board
    else Ok false
  else if String.eqb (_piece_lower self) "k" then
    if Z.max (Z.abs distance_x) (Z.abs distance_y) =? 1 then
      Ok (String.eqb piece_at_destination " "
          || negb (Bool.eqb (Py.isupper piece_at_destination)
                            (Py.isupper (_piece_type self))))
    else Ok false
  else Ok false
  end
  end.

(** ** class ChessVar *)

Inductive GameState : Type := UNFINISHED | WHITE_WON | BLACK_WON.

Definition GameState_eqb (a b : GameState) : bool :=
  match a, b with
  | UNFINISHED, UNFINISHED | WHITE_WON, WHITE_WON | BLACK_WON, BLACK_WON => true
  | _, _ => false
  end.

(** The object's three fields.  [_board] is the grid held by the [Board]
    object, which has no other field. *)
Record ChessVar : Type := mkChessVar {
  _board : Grid;
  _game_state : GameState;
  _turn : Color
}.

(** [ChessVar.__init__] *)
Definition ChessVar_init : ChessVar :=
  {| _board := Board_init; _game_state := UNFINISHED; _turn := WHITE |}.

Definition get_game_state (self : ChessVar) : GameState := _game_state self.
Definition get_board (self : ChessVar) : Grid := _board self.
Definition get_turn (self : ChessVar) : Color := _turn self.

(** The list [['d4', 'e4', 'd5', 'e5']] of [make_move]. *)
Definition center_squares : list string := ["d4"; "e4"; "d5"; "e5"].

Definition str_in (s : string) (l : list string) : bool :=
  existsb (String.eqb s) l.

(** [ChessVar.make_move]: the returned boolean and the object after the
    call. *)
Definition make_move (self : ChessVar) (current_square next_square : string)
  : result (bool * ChessVar) :=
  if negb (GameState_eqb (_game_state self) UNFINISHED) then Ok (false, self)
  else if negb (is_within_bounds current_square)
          || negb (is_within_bounds next_square) then Ok (false, self)
  else
    let* piece := get_piece_at (_board self) current_square in
    if negb (Py.truthy piece) then Ok (false, self)
    else if (Color_eqb (_turn self) WHITE && Py.islower piece)
            || (Color_eqb (_turn self) BLACK && Py.isupper piece)
    then Ok (false, self)
    else
      let* valid := is_valid_move (Piece_init piece) current_square next_square
                      (_board self) in
      if negb valid then Ok (false, self)
      else
        let* board' := move_piece (_board self) current_square next_square in
        if String.eqb piece "k" && str_in next_square center_squares then
          Ok (true, {| _board := board'; _game_state := BLACK_WON;
                       _turn := _turn self |})
        else if String.eqb piece "K" && str_in next_square center_squares then
          Ok (true, {| _board := board'; _game_state := WHITE_WON;
                       _turn := _turn self |})
        else
          let state' :=
            if negb (king_exists board' WHITE) then BLACK_WON
            else if negb (king_exists board' BLACK) then WHITE_WON
            else _game_state self in
          let turn' :=
            if GameState_eqb state' UNFINISHED then
              (if Color_eqb (_turn self) WHITE then BLACK else WHITE)
            else _turn self in
          Ok (true, {| _board := board'; _game_state := state'; _turn := turn' |}).

(** A sequence of [make_move] calls on one object: the booleans returned,
    in order, and the object after the last call. *)
Fixpoint play (self : ChessVar) (moves : list (string * string))
  : result (list bool * ChessVar) :=
  match moves with
  | [] => Ok ([], self)
  | (a, b) :: rest =>
      let* r := make_move self a b in
      let* rs := play (snd r) rest in
      Ok (fst r :: fst rs, snd rs)
  end.

(** ** Vocabulary of the statements *)

(** The thirteen occupants of a square. *)
Definition symbols : list string :=
  [" "; "P"; "N"; "B"; "R"; "Q"; "K"; "p"; "n"; "b"; "r"; "q"; "k"].

Definition row_ok (row : list string) : bool :=
  (length row =? 8)%nat && forallb (fun c => str_in c symbols) row.

(** The shape every [Board] object has: eight rows of eight occupants. *)
Definition board_ok (board : Grid) : bool :=
  (length board =? 8)%nat && forallb row_ok board.

(** [row_ok] as a proposition. *)
Definition row_wf (row : list string) : Prop :=
  length row = 8%nat /\ Forall (fun c => str_in c symbols = true) row.

(** Index pairs of the board. *)
Definition on_board (x y : Z) : Prop := 0 <= x <= 7 /\ 0 <= y <= 7.

(** [self._board[x][y]] *)
Definition cell (board : Grid) (x y : Z) : result string :=
  let* row := Py.getitem board x in
  Py.getitem row y.

(** Reading and writing one square by natural-number indices. *)
Definition grid_get (board : Grid) (i j : nat) : option string :=
  match board !! i with
  | Some row => row !! j
  | None => None
  end.

Definition grid_set (board : Grid) (i j : nat) (v : string) : Grid :=
  match board !! i with
  | Some row => <[i := <[j := v]> row]> board
  | None => board
  end.

(** The part of [make_move] after the call of [move_piece]: the two win
    checks and the change of turn, on the grid [board'] that call left. *)
Definition win_checks (self : ChessVar) (piece next_square : string)
  (board' : Grid) : ChessVar :=
  if String.eqb piece "k" && str_in next_square center_squares then
    {| _board := board'; _game_state := BLACK_WON; _turn := _turn self |}
  else if String.eqb piece "K" && str_in next_square center_squares then
    {| _board := board'; _game_state := WHITE_WON; _turn := _turn self |}
  else
    let state' :=
      if negb (king_exists board' WHITE) then BLACK_WON
      else if negb (king_exists board' BLACK) then WHITE_WON
      else _game_state self in
    let turn' :=
      if GameState_eqb state' UNFINISHED then
        (if Color_eqb (_turn self) WHITE then BLACK else WHITE)
      else _turn self in
    {| _board := board'; _game_state := state'; _turn := turn' |}.

(** The test of [make_move] that the piece is the mover's. *)
Definition out_of_turn (self : ChessVar) (piece : string) : bool :=
  (Color_eqb (_turn self) WHITE && Py.islower piece)
  || (Color_eqb (_turn self) BLACK && Py.isupper piece).

(** A game won by walking the white king to d4. *)
Definition hill_walk : list (string * string) :=
  [("e2", "e4"); ("e7", "e5"); ("e1", "e2"); ("a7", "a6"); ("e2", "e3");
   ("a6", "a5"); ("e3", "d4")].

Definition hill_won : ChessVar :=
  {| _board :=
       [ ["r"; "n"; "b"; "q"; "k"; "b"; "n"; "r"];
         [" "; "p"; "p"; "p"; " "; "p"; "p"; "p"];
         [" "; " "; " "; " "; " "; " "; " "; " "];
         ["p"; " "; " "; " "; "p"; " "; " "; " "];
         [" "; " "; " "; "K"; "P"; " "; " "; " "];
         [" "; " "; " "; " "; " "; " "; " "; " "];
         ["P"; "P"; "P"; "P"; " "; "P"; "P"; "P"];
         ["R"; "N"; "B"; "Q"; " "; "B"; "N"; "R"] ];
     _game_state := WHITE_WON;
     _turn := WHITE |}.

(** The same game one call earlier: white king on e3, white to move. *)
Definition hill_before : ChessVar :=
  {| _board :=
       [ ["r"; "n"; "b"; "q"; "k"; "b"; "n"; "r"];
         [" "; "p"; "p"; "p"; " "; "p"; "p"; "p"];
         [" "; " "; " "; " "; " "; " "; " "; " "];
         ["p"; " "; " "; " "; "p"; " "; " "; " "];
         [" "; " "; " "; " "; "P"; " "; " "; " "];
         [" "; " "; " "; " "; "K"; " "; " "; " "];
         ["P"; "P"; "P"; "P"; " "; "P"; "P"; "P"];
         ["R"; "N"; "B"; "Q"; " "; "B"; "N"; "R"] ];
     _game_state := UNFINISHED;
     _turn := WHITE |}.

(** The geometric pattern of the three sliding pieces, by the lowercase
    letter of the piece: rook, bishop, queen. *)
Definition pattern_matches (kind : string) (from_x from_y to_x to_y : Z) : bool :=
  let straight := (from_x =? to_x) || (from_y =? to_y) in
  let diagonal := Z.abs (to_x - from_x) =? Z.abs (to_y - from_y) in
  if String.eqb kind "r" then straight
  else if String.eqb kind "b" then diagonal
  else if String.eqb kind "q" then straight || diagonal
  else false.

(** The shared precheck of [is_valid_move]: the destination holds a piece
    of the mover's colour. *)
Definition own_capture (piece target : string) : bool :=
  negb (String.eqb target " ")
  && ((Py.isupper piece && Py.isupper target)
      || (Py.islower piece && Py.islower target)).

(** The notation the program builds for an index pair:
    [chr(y + ord('a')) + str(8 - x)]. *)
Definition square_name (x y : Z) : result string :=
  let* file := Py.chr (y + Py.ord "a") in
  Ok (file ++ Py.str (8 - x)).

(** The objects a program can hold: a new game after any sequence of
    [make_move] calls. *)
Inductive reachable : ChessVar -> Prop :=
| reach_init : reachable ChessVar_init
| reach_move self a b r self' :
    reachable self -> make_move self a b = Ok (r, self') -> reachable self'.

(** The winning state of a side, the other side, and a side's king. *)
Definition won (c : Color) : GameState :=
  match c with WHITE => WHITE_WON | BLACK => BLACK_WON end.

Definition opponent (c : Color) : Color :=
  match c with WHITE => BLACK | BLACK => WHITE end.

Definition king_symbol (c : Color) : string :=
  match c with WHITE => "K" | BLACK => "k" end.

(** The [k]-th square of the walk from [(from_x, from_y)] towards
    [(to_x, to_y)], one unit step per axis. *)
Definition sgn_step (d : Z) : Z :=
  if d =? 0 then 0 else if d >? 0 then 1 else -1.

Definition between (from_x from_y to_x to_y k : Z) : Z * Z :=
  (from_x + k * sgn_step (to_x - from_x), from_y + k * sgn_step (to_y - from_y)).

(** Number of unit steps from origin to destination along a line. *)
Definition span (from_x from_y to_x to_y : Z) : Z :=
  Z.max (Z.abs (to_x - from_x)) (Z.abs (to_y - from_y)).

(** Same rank, same file, or same diagonal. *)
Definition on_line (from_x from_y to_x to_y : Z) : Prop :=
  from_x = to_x \/ from_y = to_y
  \/ Z.abs (to_x - from_x) = Z.abs (to_y - from_y).

(** Some square of the board holds the king of side [c]. *)
Definition king_on_board (board : Grid) (c : Color) : Prop :=
  exists s, is_within_bounds s = true
            /\ get_piece_at board s = Ok (king_symbol c).

(** What every object reached from a new game satisfies: the grid is
    well-shaped, no side has two kings, and while the game is unfinished
    both kings stand on the board. *)
Definition kings_inv (self : ChessVar) : Prop :=
  board_ok (_board self) = true
  /\ (forall c i j i' j',
        grid_get (_board self) i j = Some (king_symbol c) ->
        grid_get (_board self) i' j' = Some (king_symbol c) ->
        (i, j) = (i', j'))
  /\ (_game_state self = UNFINISHED ->
      forall c, king_exists (_board self) c = true).

(** A game in which the white queen takes the black king: the position
    before the capture, after e4 e5 Qh5 a6 Qxf7 a5. *)
Definition queen_raid : list (string * string) :=
  [("e2", "e4"); ("e7", "e5"); ("d1", "h5"); ("a7", "a6"); ("h5", "f7");
   ("a6", "a5")].

Definition raid_before : ChessVar :=
  {| _board :=
       [ ["r"; "n"; "b"; "q"; "k"; "b"; "n"; "r"];
         [" "; "p"; "p"; "p"; " "; "Q"; "p"; "p"];
         [" "; " "; " "; " "; " "; " "; " "; " "];
         ["p"; " "; " "; " "; "p"; " "; " "; " "];
         [" "; " "; " "; " "; "P"; " "; " "; " "];
         [" "; " "; " "; " "; " "; " "; " "; " "];
         ["P"; "P"; "P"; "P"; " "; "P"; "P"; "P"];
         ["R"; "N"; "B"; " "; "K"; "B"; "N"; "R"] ];
     _game_state := UNFINISHED;
     _turn := WHITE |}.

Definition raid_won : ChessVar :=
  {| _board :=
       [ ["r"; "n"; "b"; "q"; "Q"; "b"; "n"; "r"];
         [" "; "p"; "p"; "p"; " "; " "; "p"; "p"];
         [" "; " "; " "; " "; " "; " "; " "; " "];
         ["p"; " "; " "; " "; "p"; " "; " "; " "];
         [" "; " "; " "; " "; "P"; " "; " "; " "];
         [" "; " "; " "; " "; " "; " "; " "; " "];
         ["P"; "P"; "P"; "P"; " "; "P"; "P"; "P"];
         ["R"; "N"; "B"; " "; "K"; "B"; "N"; "R"] ];
     _game_state := WHITE_WON;
     _turn := WHITE |}.

(** Squares left on the board ahead of [(x, y)] in the direction of the
    step, [(x, y)] included. *)
Definition room (sx sy x y : Z) : Z :=
  if sx =? 1 then 8 - x
  else if sx =? -1 then x + 1
  else if sy =? 1 then 8 - y
  else y + 1.

(** ** The rest of the program *)

(** [range(n)] *)
Definition range (n : nat) : list Z := map Z.of_nat (seq 0 n).

(** A [for] loop over a list of integers: the body maps the loop's state
    to its next state, or raises. *)
Fixpoint for_each {S : Type} (l : list Z) (body : Z -> S -> result S) (s : S)
  : result S :=
  match l with
  | [] => Ok s
  | x :: rest =>
      let* s' := body x s in
      for_each rest body s'
  end.

(** [Piece.get_valid_moves]: the loop's state is the list [valid_moves]. *)
Definition get_valid_moves (self : Piece) (position : string) (board : Grid)
  : result (list string) :=
  for_each (range 8)
    (fun row valid_moves =>
       for_each (range 8)
         (fun col valid_moves =>
            let* file := Py.chr (col + Py.ord "a") in
            let next_square := file ++ Py.str (8 - row) in
            let* valid := is_valid_move self position next_square board in
            if valid then Ok (valid_moves ++ [next_square])%list
            else Ok valid_moves)
         valid_moves)
    [].

(** The sixty-four squares in the order of the two loops: rank 8 first,
    files a to h within a rank. *)
Definition files : list ascii := ["a"; "b"; "c"; "d"; "e"; "f"; "g"; "h"]%char.

Definition ranks_down : list ascii :=
  ["8"; "7"; "6"; "5"; "4"; "3"; "2"; "1"]%char.

Definition all_squares : list string :=
  flat_map (fun r => map (fun f => String f (String r "")) files) ranks_down.

(** The name of the square at an index pair of the board, as a value. *)
Definition square (x y : Z) : string :=
  String (ascii_of_N (Z.to_N (y + 97))) (Py.str (8 - x)).

(** [is_valid_move] as a test: true when the call returns [True]. *)
Definition judged_legal (self : Piece) (position : string) (board : Grid)
  (next_square : string) : bool :=
  match is_valid_move self position next_square board with
  | Ok true => true
  | _ => false
  end.

(** The side a symbol belongs to, if any. *)
Definition side_of (piece : string) : option Color :=
  if Py.isupper piece then Some WHITE
  else if Py.islower piece then Some BLACK
  else None.

(** Some center square holds the king of side [c]. *)
Definition king_on_center (board : Grid) (c : Color) : Prop :=
  exists s, In s center_squares /\ get_piece_at board s = Ok (king_symbol c).

(** Number of squares of the grid that hold the symbol [v]. *)
Definition count_symbol (v : string) (board : Grid) : nat :=
  list_sum (map (fun row => length (List.filter (String.eqb v) row)) board).

(** Number of calls that returned [True]. *)
Definition count_true (rs : list bool) : nat :=
  length (List.filter (fun r => r) rs).

(** How the game state of an object relates to the kings on its board. *)
Definition state_inv (self : ChessVar) : Prop :=
  match _game_state self with
  | UNFINISHED =>
      king_on_board (_board self) WHITE /\ king_on_board (_board self) BLACK
      /\ ~ king_on_center (_board self) WHITE
      /\ ~ king_on_center (_board self) BLACK
  | WHITE_WON =>
      king_on_board (_board self) WHITE
      /\ (king_on_center (_board self) WHITE
          \/ ~ king_on_board (_board self) BLACK)
  | BLACK_WON =>
      king_on_board (_board self) BLACK
      /\ (king_on_center (_board self) BLACK
          \/ ~ king_on_board (_board self) WHITE)
  end.

(** ** Squares and their notation *)

Lemma char_in_files c :
  Py.char_in c "abcdefgh" = true ->
  In c ["a"; "b"; "c"; "d"; "e"; "f"; "g"; "h"]%char.
Proof.
  simpl. rewrite !orb_true_iff, !Ascii.eqb_eq. intros H.
  repeat (destruct H as [H | H]; [ subst; auto 12 | ]). discriminate.
Qed.

Lemma char_in_ranks c :
  Py.char_in c "12345678" = true ->
  In c ["1"; "2"; "3"; "4"; "5"; "6"; "7"; "8"]%char.
Proof.
  simpl. rewrite !orb_true_iff, !Ascii.eqb_eq. intros H.
  repeat (destruct H as [H | H]; [ subst; auto 12 | ]). discriminate.
Qed.

Ltac split_in H :=
  repeat (destruct H as [H | H]; [ subst | ]); try contradiction.

Lemma small_cases x : 0 <= x <= 7 ->
  x = 0 \/ x = 1 \/ x = 2 \/ x = 3 \/ x = 4 \/ x = 5 \/ x = 6 \/ x = 7.
Proof. lia. Qed.

Ltac enum x H :=
  let E := fresh "E" in
  pose proof (small_cases x H) as E;
  repeat (destruct E as [E | E]; [ subst x | ]); try subst x.

Lemma notation_to_index_shape s x y :
  notation_to_index s = Some (x, y) ->
  on_board x y /\ square_name x y = Ok s.
Proof.
  unfold notation_to_index.
  destruct s as [|c0 [|c1 [|]]]; try discriminate.
  destruct (Py.char_in c0 "abcdefgh") eqn:E0; try discriminate.
  destruct (Py.char_in c1 "12345678") eqn:E1; try discriminate.
  apply char_in_files in E0. apply char_in_ranks in E1.
  split_in E0; split_in E1; intros [= <- <-]; vm_compute; intuition congruence.
Qed.

Lemma square_name_index x y :
  on_board x y ->
  exists s, square_name x y = Ok s /\ notation_to_index s = Some (x, y).
Proof.
  intros [Hx Hy]. enum x Hx; enum y Hy; eexists; split; reflexivity.
Qed.

Lemma is_within_bounds_index s :
  is_within_bounds s = true <-> exists x y, notation_to_index s = Some (x, y).
Proof.
  unfold is_within_bounds, notation_to_index.
  destruct s as [|c0 [|c1 [|]]];
    try (split; [discriminate | intros (? & ? & ?); discriminate]).
  destruct (Py.char_in c0 "abcdefgh"), (Py.char_in c1 "12345678"); simpl;
    split; try discriminate; eauto; intros (? & ? & ?); discriminate.
Qed.

Lemma notation_to_index_inj s1 s2 p :
  notation_to_index s1 = Some p -> notation_to_index s2 = Some p -> s1 = s2.
Proof.
  destruct p as [x y]. intros H1 H2.
  apply notation_to_index_shape in H1, H2.
  destruct H1 as [_ H1], H2 as [_ H2]. congruence.
Qed.

(** ** The grid *)

Lemma forallb_Forall {A} (f : A -> bool) l :
  forallb f l = true <-> Forall (fun x => f x = true) l.
Proof.
  induction l as [|a l IH]; simpl.
  - split; auto.
  - rewrite andb_true_iff, IH. split.
    + intros [? ?]. constructor; auto.
    + intros H. inversion H; auto.
Qed.

Lemma board_ok_spec board :
  board_ok board = true <-> length board = 8%nat /\ Forall row_wf board.
Proof.
  unfold board_ok. rewrite andb_true_iff, Nat.eqb_eq, forallb_Forall.
  apply and_iff_compat_l. apply Forall_iff. intros row.
  unfold row_ok, row_wf. rewrite andb_true_iff, Nat.eqb_eq, forallb_Forall.
  reflexivity.
Qed.

Lemma getitem_nat {A} (l : list A) (i : Z) :
  0 <= i < Z.of_nat (length l) ->
  exists v, l !! Z.to_nat i = Some v /\ Py.getitem l i = Ok v.
Proof.
  intros Hi. unfold Py.getitem.
  destruct (Z.ltb_spec i 0); [lia|].
  destruct (Z.leb_spec 0 i); [|lia].
  destruct (Z.ltb_spec i (Z.of_nat (length l))); [|lia]. simpl.
  destruct (lookup_lt_is_Some_2 l (Z.to_nat i)) as [v Hv]; [lia|].
  exists v. rewrite Hv. auto.
Qed.

Lemma setitem_nat {A} (l : list A) (i : Z) (v : A) :
  0 <= i < Z.of_nat (length l) ->
  Py.setitem l i v = Ok (<[Z.to_nat i := v]> l).
Proof.
  intros Hi. unfold Py.setitem.
  destruct (Z.ltb_spec i 0); [lia|].
  destruct (Z.leb_spec 0 i); [|lia].
  destruct (Z.ltb_spec i (Z.of_nat (length l))); [|lia]. reflexivity.
Qed.

Lemma board_ok_row board i row :
  board_ok board = true -> board !! i = Some row -> row_wf row.
Proof.
  intros Hb Hr. apply board_ok_spec in Hb as [_ Hb].
  eapply Forall_lookup_1; eauto.
Qed.

(** On a well-shaped board every index pair of the board reads a symbol. *)
Lemma cell_grid_get board x y :
  board_ok board = true -> on_board x y ->
  exists v, grid_get board (Z.to_nat x) (Z.to_nat y) = Some v
            /\ cell board x y = Ok v
            /\ str_in v symbols = true.
Proof.
  intros Hb [Hx Hy].
  pose proof (proj1 (board_ok_spec board) Hb) as [Hlen _].
  destruct (getitem_nat board x) as (row & Hrow & Hget); [lia|].
  destruct (board_ok_row _ _ _ Hb Hrow) as [Hrl Hsym].
  destruct (getitem_nat row y) as (v & Hv & Hget'); [lia|].
  exists v. unfold grid_get, cell. rewrite Hrow, Hget. simpl.
  repeat split; auto.
  exact (Forall_lookup_1 _ _ _ _ Hsym Hv).
Qed.

Lemma get_piece_at_cell board s x y :
  notation_to_index s = Some (x, y) ->
  get_piece_at board s = cell board x y.
Proof. intros H. unfold get_piece_at, cell. rewrite H. reflexivity. Qed.

Lemma grid_get_set_eq board i j v :
  (i < 8)%nat -> (j < 8)%nat -> board_ok board = true ->
  grid_get (grid_set board i j v) i j = Some v.
Proof.
  intros Hi Hj Hb.
  pose proof (proj1 (board_ok_spec board) Hb) as [Hlen _].
  destruct (lookup_lt_is_Some_2 board i) as [row Hrow]; [lia|].
  destruct (board_ok_row _ _ _ Hb Hrow) as [Hrl _].
  unfold grid_get, grid_set. rewrite Hrow.
  rewrite list_lookup_insert_eq by lia.
  apply list_lookup_insert_eq. lia.
Qed.

Lemma grid_get_set_ne board i j v i' j' :
  (i, j) <> (i', j') ->
  grid_get (grid_set board i j v) i' j' = grid_get board i' j'.
Proof.
  intros Hne. unfold grid_get, grid_set.
  destruct (board !! i) as [row|] eqn:Hrow; [|reflexivity].
  destruct (decide (i = i')) as [<-|Hi].
  - rewrite list_lookup_insert_eq by (eapply lookup_lt_Some; eauto).
    rewrite Hrow. apply list_lookup_insert_ne. congruence.
  - rewrite list_lookup_insert_ne by auto. reflexivity.
Qed.

Lemma board_ok_set board i j v :
  board_ok board = true -> str_in v symbols = true ->
  board_ok (grid_set board i j v) = true.
Proof.
  intros Hb Hv. unfold grid_set.
  destruct (board !! i) as [row|] eqn:Hrow; [|exact Hb].
  destruct (board_ok_row _ _ _ Hb Hrow) as [Hrl Hsym].
  apply board_ok_spec in Hb as [Hlen Hall]. apply board_ok_spec. split.
  - rewrite length_insert. exact Hlen.
  - apply Forall_insert; [exact Hall|]. split.
    + rewrite length_insert. exact Hrl.
    + apply Forall_insert; auto.
Qed.

(** [Board.move_piece] on two squares of the board: it returns, and the new
    grid is the old one with the destination overwritten and the origin
    cleared, in that order. *)
Lemma move_piece_grid board a b fx fy tx ty moved :
  board_ok board = true ->
  notation_to_index a = Some (fx, fy) ->
  notation_to_index b = Some (tx, ty) ->
  cell board fx fy = Ok moved ->
  move_piece board a b =
    Ok (grid_set (grid_set board (Z.to_nat tx) (Z.to_nat ty) moved)
                 (Z.to_nat fx) (Z.to_nat fy) " ").
Proof.
  intros Hb Ha Hc Hm.
  destruct (notation_to_index_shape _ _ _ Ha) as [[Hfx Hfy] _].
  destruct (notation_to_index_shape _ _ _ Hc) as [[Htx Hty] _].
  pose proof (proj1 (board_ok_spec board) Hb) as [Hlen _].
  unfold move_piece. rewrite Ha, Hc.
  unfold cell in Hm.
  destruct (getitem_nat board fx) as (frow & Hfrow & Hgf); [lia|].
  rewrite Hgf in Hm |- *. simpl in Hm |- *. rewrite Hm. simpl.
  destruct (getitem_nat board tx) as (trow & Htrow & Hgt); [lia|].
  rewrite Hgt. simpl.
  destruct (board_ok_row _ _ _ Hb Htrow) as [Htl _].
  rewrite (setitem_nat trow ty) by lia. simpl.
  rewrite (setitem_nat board tx) by lia. simpl.
  set (board1 := <[Z.to_nat tx := <[Z.to_nat ty := moved]> trow]> board).
  assert (Hb1 : board1 = grid_set board (Z.to_nat tx) (Z.to_nat ty) moved).
  { unfold grid_set. rewrite Htrow. reflexivity. }
  assert (Hlen1 : length board1 = 8%nat).
  { unfold board1. rewrite length_insert. exact Hlen. }
  destruct (getitem_nat board1 fx) as (frow1 & Hfrow1 & Hgf1); [lia|].
  rewrite Hgf1. simpl.
  assert (Hfl1 : length frow1 = 8%nat).
  { unfold board1 in Hfrow1.
    destruct (decide (Z.to_nat tx = Z.to_nat fx)) as [E|E].
    - rewrite E in Hfrow1. rewrite list_lookup_insert_eq in Hfrow1 by lia.
      injection Hfrow1 as <-. rewrite length_insert. exact Htl.
    - rewrite list_lookup_insert_ne in Hfrow1 by auto.
      destruct (board_ok_row _ _ _ Hb Hfrow1) as [? _]. auto. }
  rewrite (setitem_nat frow1 fy) by lia. simpl.
  rewrite (setitem_nat board1 fx) by lia.
  rewrite <- Hb1. unfold grid_set at 1. rewrite Hfrow1. reflexivity.
Qed.

(** ** The path walk *)

Lemma square_name_file x y :
  on_board x y ->
  exists file, Py.chr (y + Py.ord "a") = Ok file
               /\ notation_to_index (file ++ Py.str (8 - x)) = Some (x, y).
Proof.
  intros [Hx Hy]. enum x Hx; enum y Hy; eexists; split; reflexivity.
Qed.

Lemma unit_cases s : -1 <= s <= 1 -> s = -1 \/ s = 0 \/ s = 1.
Proof. lia. Qed.

(** A walk of [n] unit steps that ends on its destination, all on the
    board: it returns with any fuel of at least [n], and returns [True]
    exactly when the [n] squares before the destination are empty. *)
Lemma path_walk_line board sx sy tx ty :
  board_ok board = true ->
  -1 <= sx <= 1 -> -1 <= sy <= 1 -> (sx, sy) <> (0, 0) ->
  on_board tx ty ->
  forall (n : nat) x y,
    on_board x y ->
    tx = x + Z.of_nat n * sx -> ty = y + Z.of_nat n * sy ->
    exists r : bool,
      (forall fuel, (n <= fuel)%nat ->
         path_walk fuel x y sx sy tx ty board = Ok r)
      /\ (r = true <->
          forall k, 0 <= k < Z.of_nat n ->
            cell board (x + k * sx) (y + k * sy) = Ok " ").
Proof.
  intros Hb Hsx Hsy Hne Ht n.
  destruct (unit_cases _ Hsx) as [Ex | [Ex | Ex]];
  destruct (unit_cases _ Hsy) as [Ey | [Ey | Ey]]; subst sx sy;
    try congruence; clear Hne Hsx Hsy.
  all: induction n as [|n IH]; intros x y Hxy Hx Hy.
  all: try (exists true; split;
            [ intros fuel _; destruct fuel; simpl;
              replace (x =? tx) with true by (symmetry; apply Z.eqb_eq; lia);
              replace (y =? ty) with true by (symmetry; apply Z.eqb_eq; lia);
              reflexivity
            | split; [ intros _ k Hk; lia | reflexivity ] ]).
  all: destruct (cell_grid_get board x y Hb Hxy) as (v & _ & Hv & _).
  all: destruct (square_name_file x y Hxy) as (file & Hfile & Hidx).
  all: match goal with
       | |- context [path_walk _ _ _ ?sx ?sy _ _ _] =>
           destruct (IH (x + sx) (y + sy)) as (r & Hr & Hspec);
             [ destruct Hxy, Ht; split; lia | lia | lia | ]
       end.
  all: exists (String.eqb v " " && r); split;
    [ intros fuel Hf; destruct fuel as [|fuel]; [lia|]; simpl;
      replace ((x =? tx) && (y =? ty)) with false
        by (symmetry; apply andb_false_iff; rewrite !Z.eqb_neq; lia);
      simpl;
      rewrite Hfile; simpl;
      rewrite (get_piece_at_cell _ _ _ _ Hidx), Hv; simpl;
      destruct (String.eqb v " "); simpl; [ apply Hr; lia | reflexivity ]
    | rewrite andb_true_iff, Hspec, String.eqb_eq; split;
      [ intros [-> Hall] k Hk;
        destruct (Z.eq_dec k 0) as [->|Hk0];
        [ rewrite !Z.mul_0_l, !Z.add_0_r; exact Hv
        | specialize (Hall (k - 1) ltac:(lia));
          rewrite <- Hall; f_equal; lia ]
      | intros Hall; split;
        [ specialize (Hall 0 ltac:(lia));
          rewrite !Z.mul_0_l, !Z.add_0_r, Hv in Hall; congruence
        | intros k Hk; specialize (Hall (k + 1) ltac:(lia));
          rewrite <- Hall; f_equal; lia ] ] ].
Qed.

Lemma sgn_step_cases d :
  (d = 0 /\ sgn_step d = 0) \/ (d > 0 /\ sgn_step d = 1)
  \/ (d < 0 /\ sgn_step d = -1).
Proof.
  unfold sgn_step.
  destruct (Z.eqb_spec d 0); [lia|].
  destruct (Z.gtb_spec d 0); lia.
Qed.

Lemma path_is_clear_fuel_steps fuel fx fy tx ty board :
  _path_is_clear_fuel fuel fx fy tx ty board =
  path_walk fuel (fx + sgn_step (tx - fx)) (fy + sgn_step (ty - fy))
    (sgn_step (tx - fx)) (sgn_step (ty - fy)) tx ty board.
Proof. reflexivity. Qed.

(** [_path_is_clear] between two squares of a common line: it returns, with
    any fuel of at least six, and returns [True] exactly when every square
    strictly between the two is empty. *)
Lemma path_is_clear_line board fx fy tx ty :
  board_ok board = true ->
  on_board fx fy -> on_board tx ty -> on_line fx fy tx ty ->
  exists r : bool,
    (forall fuel, (6 <= fuel)%nat ->
       _path_is_clear_fuel fuel fx fy tx ty board = Ok r)
    /\ (r = true <->
        forall k, 0 < k < span fx fy tx ty ->
          cell board (fst (between fx fy tx ty k))
                     (snd (between fx fy tx ty k)) = Ok " ").
Proof.
  intros Hb Hf Ht Hl. unfold between, span. simpl.
  setoid_rewrite path_is_clear_fuel_steps.
  destruct Hf as [Hfx Hfy]. pose proof Ht as [Htx Hty].
  destruct (Z.eq_dec (Z.max (Z.abs (tx - fx)) (Z.abs (ty - fy))) 0) as [E0|E0].
  - assert (tx = fx) by lia. assert (ty = fy) by lia. subst tx ty.
    exists true. split.
    + intros fuel _. rewrite !Z.sub_diag. change (sgn_step 0) with 0.
      rewrite !Z.add_0_r. destruct fuel; simpl; rewrite !Z.eqb_refl; reflexivity.
    + split; [intros _ k Hk; lia | reflexivity].
  - set (sx := sgn_step (tx - fx)). set (sy := sgn_step (ty - fy)).
    set (n := Z.max (Z.abs (tx - fx)) (Z.abs (ty - fy))) in *.
    assert (Hsteps : -1 <= sx <= 1 /\ -1 <= sy <= 1 /\ (sx, sy) <> (0, 0)
                     /\ tx = fx + n * sx /\ ty = fy + n * sy /\ 1 <= n <= 7).
    { unfold sx, sy, n, on_line in *.
      destruct (sgn_step_cases (tx - fx)) as [[? ->] | [[? ->] | [? ->]]];
      destruct (sgn_step_cases (ty - fy)) as [[? ->] | [[? ->] | [? ->]]];
      repeat split; try lia; try congruence. }
    destruct Hsteps as (Hsx & Hsy & Hne & Hx & Hy & Hn).
    destruct (path_walk_line board sx sy tx ty Hb Hsx Hsy Hne Ht
                (Z.to_nat (n - 1)) (fx + sx) (fy + sy)) as (r & Hr & Hspec).
    + destruct (unit_cases _ Hsx) as [Ex | [Ex | Ex]];
      destruct (unit_cases _ Hsy) as [Ey | [Ey | Ey]];
        rewrite Ex, Ey in *; split; lia.
    + rewrite Z2Nat.id by lia. lia.
    + rewrite Z2Nat.id by lia. lia.
    + exists r. split.
      * intros fuel Hfuel. apply Hr. lia.
      * rewrite Hspec. rewrite Z2Nat.id by lia. split.
        -- intros Hall k Hk. specialize (Hall (k - 1) ltac:(lia)).
           rewrite <- Hall. f_equal; lia.
        -- intros Hall k Hk. specialize (Hall (k + 1) ltac:(lia)).
           rewrite <- Hall. f_equal; lia.
Qed.

Lemma path_is_clear_returns board fx fy tx ty :
  board_ok board = true ->
  on_board fx fy -> on_board tx ty -> on_line fx fy tx ty ->
  exists r : bool,
    _path_is_clear fx fy tx ty board = Ok r
    /\ (r = true <->
        forall k, 0 < k < span fx fy tx ty ->
          cell board (fst (between fx fy tx ty k))
                     (snd (between fx fy tx ty k)) = Ok " ").
Proof.
  intros Hb Hf Ht Hl.
  destruct (path_is_clear_line board fx fy tx ty Hb Hf Ht Hl) as (r & Hr & Hspec).
  exists r. split; [|exact Hspec].
  apply Hr. unfold path_fuel. lia.
Qed.

(** ** Legality never faults *)

Tactic Notation "head_if" "as" ident(H) :=
  match goal with
  | |- exists r, (if ?c then _ else _) = _ => destruct c eqn:H
  end.

Lemma is_valid_move_returns self board a b :
  board_ok board = true ->
  is_within_bounds a = true -> is_within_bounds b = true ->
  exists r : bool, is_valid_move self a b board = Ok r.
Proof.
  intros Hb Ha Hc.
  apply is_within_bounds_index in Ha as (fx & fy & Ha).
  apply is_within_bounds_index in Hc as (tx & ty & Hc).
  destruct (notation_to_index_shape _ _ _ Ha) as [Hf _].
  destruct (notation_to_index_shape _ _ _ Hc) as [Ht _].
  destruct (cell_grid_get board tx ty Hb Ht) as (q & _ & Hq & _).
  unfold is_valid_move. rewrite Ha, Hc.
  rewrite (get_piece_at_cell _ _ _ _ Hc), Hq. simpl.
  head_if as Hown; [eauto|].
  head_if as Hp.
  { head_if as H1; [eauto|]. head_if as H2.
    - apply andb_true_iff in H2 as [Hd Hs].
      apply andb_true_iff in Hd as [_ Hd].
      apply Z.eqb_eq in Hs.
      assert (Hbt : on_board (fx + (if Py.isupper (_piece_type self)
                                     then -1 else 1)) fy).
      { destruct Hf. destruct (Py.isupper (_piece_type self)); split; lia. }
      destruct (square_name_file _ _ Hbt) as (file & Hfile & Hidx).
      destruct (cell_grid_get board _ _ Hb Hbt) as (v & _ & Hv & _).
      rewrite Hfile. simpl.
      rewrite (get_piece_at_cell _ _ _ _ Hidx), Hv. simpl.
      destruct (String.eqb v " "); eauto.
    - head_if as H3; eauto. }
  assert (Hpath : on_line fx fy tx ty ->
            exists r, _path_is_clear fx fy tx ty board = Ok r).
  { intros Hl.
    destruct (path_is_clear_returns board fx fy tx ty Hb Hf Ht Hl) as (r & Hr & _).
    eauto. }
  head_if as Hr.
  { head_if as H1; [|eauto]. apply Hpath. unfold on_line.
    apply orb_true_iff in H1. rewrite !Z.eqb_eq in H1. tauto. }
  head_if as Hbi.
  { head_if as H1; [|eauto]. apply Hpath. unfold on_line.
    apply Z.eqb_eq in H1. auto. }
  head_if as Hn.
  { head_if as H1; eauto. }
  head_if as Hq'.
  { head_if as H1; [|eauto]. apply Hpath. unfold on_line.
    rewrite !orb_true_iff, !Z.eqb_eq in H1. tauto. }
  head_if as Hk.
  { head_if as H1; eauto. }
  eauto.
Qed.

(** ** The two outcomes of [make_move] *)

Lemma symbols_truthy v : str_in v symbols = true -> Py.truthy v = true.
Proof.
  unfold str_in, symbols. simpl. rewrite !orb_true_iff, !String.eqb_eq.
  intros H. repeat (destruct H as [H | H]; [ subst; reflexivity | ]).
  discriminate.
Qed.

(** A call of [make_move] on a well-shaped board either refuses, leaving
    the object as it was, or passes every check, moves the piece and runs
    the win checks.  It never raises and never runs out of fuel. *)
Lemma make_move_cases self a b :
  board_ok (_board self) = true ->
  make_move self a b = Ok (false, self)
  \/ exists piece fx fy tx ty,
       _game_state self = UNFINISHED
       /\ notation_to_index a = Some (fx, fy)
       /\ notation_to_index b = Some (tx, ty)
       /\ cell (_board self) fx fy = Ok piece
       /\ str_in piece symbols = true
       /\ out_of_turn self piece = false
       /\ is_valid_move (Piece_init piece) a b (_board self) = Ok true
       /\ make_move self a b =
            Ok (true,
                win_checks self piece b
                  (grid_set (grid_set (_board self) (Z.to_nat tx) (Z.to_nat ty)
                               piece)
                            (Z.to_nat fx) (Z.to_nat fy) " ")).
Proof.
  intros Hb. unfold make_move.
  destruct (GameState_eqb (_game_state self) UNFINISHED) eqn:Hs; simpl; [|auto].
  destruct (is_within_bounds a) eqn:Ha; simpl; [|auto].
  destruct (is_within_bounds b) eqn:Hc; simpl; [|auto].
  pose proof Ha as Ha'. pose proof Hc as Hc'.
  apply is_within_bounds_index in Ha' as (fx & fy & Hia).
  apply is_within_bounds_index in Hc' as (tx & ty & Hic).
  destruct (notation_to_index_shape _ _ _ Hia) as [Hf _].
  destruct (cell_grid_get _ fx fy Hb Hf) as (piece & _ & Hp & Hsym).
  rewrite (get_piece_at_cell _ _ _ _ Hia), Hp. simpl.
  rewrite (symbols_truthy _ Hsym). simpl.
  fold (out_of_turn self piece).
  destruct (out_of_turn self piece) eqn:Hturn; [auto|].
  destruct (is_valid_move_returns (Piece_init piece) _ a b Hb Ha Hc) as (r & Hr).
  rewrite Hr. simpl. destruct r; simpl; [|auto].
  right. exists piece, fx, fy, tx, ty.
  rewrite (move_piece_grid _ a b fx fy tx ty piece Hb Hia Hic Hp). simpl.
  repeat split; auto.
  - destruct (_game_state self); simpl in Hs; congruence.
  - unfold win_checks. simpl.
    repeat match goal with
           | |- (if ?c then _ else _) = _ => destruct c
           end; reflexivity.
Qed.

Lemma win_checks_board self piece b board' :
  _board (win_checks self piece b board') = board'.
Proof.
  unfold win_checks.
  destruct (String.eqb piece "k" && str_in b center_squares); [reflexivity|].
  destruct (String.eqb piece "K" && str_in b center_squares); reflexivity.
Qed.

Lemma make_move_board_ok self a b r self' :
  board_ok (_board self) = true ->
  make_move self a b = Ok (r, self') ->
  board_ok (_board self') = true.
Proof.
  intros Hb Hm.
  destruct (make_move_cases self a b Hb)
    as [Hf | (piece & fx & fy & tx & ty & _ & _ & _ & _ & Hsym & _ & _ & Ht)].
  - rewrite Hf in Hm. injection Hm as <- <-. exact Hb.
  - rewrite Ht in Hm. injection Hm as <- <-.
    rewrite win_checks_board.
    apply board_ok_set; [apply board_ok_set; assumption | reflexivity].
Qed.

Lemma reachable_board_ok self :
  reachable self -> board_ok (_board self) = true.
Proof.
  induction 1 as [|self a b r self' _ IH Hm].
  - reflexivity.
  - eapply make_move_board_ok; eauto.
Qed.

(** A call with an empty square as its piece is never judged legal: no
    branch of [is_valid_move] speaks for the symbol [" "]. *)
Lemma is_valid_move_empty board a b :
  is_valid_move (Piece_init " ") a b board <> Ok true.
Proof.
  unfold is_valid_move.
  destruct (notation_to_index a) as [[fx fy]|]; [|discriminate].
  destruct (notation_to_index b) as [[tx ty]|]; [|discriminate].
  destruct (get_piece_at board b) as [q| |]; simpl; try discriminate.
  destruct (negb (String.eqb q " ")); simpl; discriminate.
Qed.

(** A call that passes every check moves the piece and runs the win
    checks. *)
Lemma make_move_legal self a b piece :
  board_ok (_board self) = true ->
  GameState_eqb (get_game_state self) UNFINISHED = true ->
  is_within_bounds a = true -> is_within_bounds b = true ->
  get_piece_at (_board self) a = Ok piece ->
  out_of_turn self piece = false ->
  is_valid_move (Piece_init piece) a b (_board self) = Ok true ->
  exists board',
    move_piece (_board self) a b = Ok board'
    /\ make_move self a b = Ok (true, win_checks self piece b board').
Proof.
  intros Hb Hs Ha Hc Hp Hturn Hv.
  destruct (make_move_cases self a b Hb)
    as [Hf | (piece' & fx & fy & tx & ty & _ & Hia & Hic & Hp' & _ & _ & _ & Ht)].
  - exfalso. revert Hf. unfold make_move, get_game_state in *.
    rewrite Hs, Ha, Hc, Hp. simpl.
    fold (out_of_turn self piece). rewrite Hturn, Hv. simpl.
    apply is_within_bounds_index in Ha as (fx & fy & Hia).
    destruct (notation_to_index_shape _ _ _ Hia) as [Hf _].
    destruct (cell_grid_get _ fx fy Hb Hf) as (piece' & _ & Hp' & Hsym).
    rewrite (get_piece_at_cell _ _ _ _ Hia), Hp' in Hp. injection Hp as ->.
    rewrite (symbols_truthy _ Hsym). simpl.
    destruct (move_piece (_board self) a b) as [bd| |]; simpl; try discriminate.
    repeat match goal with
           | |- (if ?c then _ else _) = _ -> _ => destruct c
           end; discriminate.
  - rewrite (get_piece_at_cell _ _ _ _ Hia), Hp' in Hp. injection Hp as ->.
    eexists. split; [|exact Ht].
    apply (move_piece_grid _ a b fx fy tx ty piece Hb Hia Hic Hp').
Qed.

Lemma toggle_opponent c :
  (if Color_eqb c WHITE then BLACK else WHITE) = opponent c.
Proof. destruct c; reflexivity. Qed.

Lemma win_checks_turn self piece b board' :
  _turn (win_checks self piece b board')
  = if GameState_eqb (_game_state (win_checks self piece b board')) UNFINISHED
    then opponent (_turn self) else _turn self.
Proof.
  unfold win_checks.
  destruct (String.eqb piece "k" && str_in b center_squares); [reflexivity|].
  destruct (String.eqb piece "K" && str_in b center_squares); [reflexivity|].
  cbn [_turn _game_state]. rewrite toggle_opponent. reflexivity.
Qed.

(** ** The claims *)

(** C1.  A call of [make_move] never raises (nor loops): it returns a
    boolean.  Whenever that boolean is [False], the object after the call,
    that is the board grid, the game state and the turn, is the object
    before the call.  This covers every reason of refusal: a finished game,
    malformed notation, an empty origin, a piece of the side not to move,
    and a move the piece rules reject. *)
Theorem make_move_refusal_is_noop self a b :
  board_ok (_board self) = true ->
  exists r self',
    make_move self a b = Ok (r, self')
    /\ (r = false -> self' = self).
Proof.
  intros Hb.
  destruct (make_move_cases self a b Hb)
    as [Hf | (piece & fx & fy & tx & ty & _ & _ & _ & _ & _ & _ & _ & Ht)].
  - exists false, self. auto.
  - eexists true, _. split; [exact Ht | discriminate].
Qed.

Lemma make_move_refusal_is_noop_witness :
  exists r self',
    make_move ChessVar_init "e2" "e5" = Ok (r, self')
    /\ (r = false -> self' = ChessVar_init).
Proof.
  apply (make_move_refusal_is_noop ChessVar_init "e2" "e5"). reflexivity.
Defined.

Lemma make_move_finished self a b :
  GameState_eqb (get_game_state self) UNFINISHED = false ->
  make_move self a b = Ok (false, self).
Proof.
  intros H. unfold make_move, get_game_state in *. rewrite H. reflexivity.
Qed.

Lemma finished_game_refuses self moves :
  GameState_eqb (get_game_state self) UNFINISHED = false ->
  play self moves = Ok (repeat false (length moves), self).
Proof.
  intros H. induction moves as [|[a b] rest IH]; simpl.
  - reflexivity.
  - rewrite (make_move_finished self a b H). simpl. rewrite IH. reflexivity.
Qed.

Lemma play_app self moves1 moves2 rs1 self1 rs2 self2 :
  play self moves1 = Ok (rs1, self1) ->
  play self1 moves2 = Ok (rs2, self2) ->
  play self (moves1 ++ moves2)%list = Ok ((rs1 ++ rs2)%list, self2).
Proof.
  revert self rs1. induction moves1 as [|[a b] rest IH]; intros self rs1 H1 H2.
  - simpl in H1. injection H1 as <- <-. exact H2.
  - simpl in H1 |- *.
    destruct (make_move self a b) as [[r g]| |]; simpl in *; try discriminate.
    destruct (play g rest) as [[rs g']| |] eqn:Hrest; simpl in *;
      try discriminate.
    injection H1 as <- <-.
    rewrite (IH g rs Hrest H2). reflexivity.
Qed.

(** Any sequence of calls on a well-shaped board returns: one boolean per
    call. *)
Lemma play_returns moves : forall self,
  board_ok (_board self) = true ->
  exists rs self',
    play self moves = Ok (rs, self')
    /\ length rs = length moves
    /\ board_ok (_board self') = true.
Proof.
  induction moves as [|[a b] rest IH]; intros self Hb; simpl.
  - exists [], self. auto.
  - destruct (make_move_cases self a b Hb)
      as [Hf | (piece & fx & fy & tx & ty & _ & _ & _ & _ & _ & _ & _ & Ht)].
    + rewrite Hf. simpl. destruct (IH self Hb) as (rs & self' & Hp & Hl & Hb').
      rewrite Hp. simpl. exists (false :: rs), self'. simpl. auto.
    + pose proof (make_move_board_ok _ _ _ _ _ Hb Ht) as Hb1.
      rewrite Ht. simpl.
      destruct (IH _ Hb1) as (rs & self' & Hp & Hl & Hb').
      rewrite Hp. simpl. exists (true :: rs), self'. simpl. auto.
Qed.

(** C2.  The game state is monotonic.  Take any sequence of [make_move]
    calls on a new game after which [get_game_state] answers [WHITE_WON] or
    [BLACK_WON].  However the sequence is continued, every further call
    returns [False] and the object stays the very same: the board and the
    turn are not touched and [get_game_state] keeps its answer. *)
Theorem game_state_monotonic moves1 rs1 self1 moves2 :
  play ChessVar_init moves1 = Ok (rs1, self1) ->
  GameState_eqb (get_game_state self1) UNFINISHED = false ->
  play ChessVar_init (moves1 ++ moves2)%list
  = Ok ((rs1 ++ repeat false (length moves2))%list, self1)
  /\ play self1 moves2 = Ok (repeat false (length moves2), self1).
Proof.
  intros H1 Hs.
  pose proof (finished_game_refuses self1 moves2 Hs) as H2.
  split; [|exact H2].
  eapply play_app; eauto.
Qed.

Lemma game_state_monotonic_witness :
  play ChessVar_init (hill_walk ++ [("a5", "a4"); ("d4", "d5")])%list
  = Ok ((repeat true 7 ++ repeat false 2)%list, hill_won)
  /\ play hill_won [("a5", "a4"); ("d4", "d5")] = Ok (repeat false 2, hill_won).
Proof.
  apply (game_state_monotonic hill_walk (repeat true 7) hill_won
           [("a5", "a4"); ("d4", "d5")]).
  - vm_compute. reflexivity.
  - reflexivity.
Defined.

(** C3.  King to the center.  When a call passes every check, the piece on
    the origin is a king and the destination is one of d4, e4, d5, e5, the
    call returns [True], the game state becomes the win of the king's side,
    which is the side to move, and the turn is left as it was.  Nothing is
    asked of the destination's occupant: the check precedes the king-capture
    check and decides alone, also when the move takes the other king. *)
Theorem king_to_center_wins self a b c :
  board_ok (_board self) = true ->
  GameState_eqb (get_game_state self) UNFINISHED = true ->
  is_within_bounds a = true -> is_within_bounds b = true ->
  get_piece_at (_board self) a = Ok (king_symbol c) ->
  out_of_turn self (king_symbol c) = false ->
  is_valid_move (Piece_init (king_symbol c)) a b (_board self) = Ok true ->
  str_in b center_squares = true ->
  exists self',
    make_move self a b = Ok (true, self')
    /\ get_game_state self' = won c
    /\ c = get_turn self
    /\ get_turn self' = get_turn self
    /\ move_piece (_board self) a b = Ok (_board self').
Proof.
  intros Hb Hs Ha Hc Hp Hturn Hv Hcenter.
  destruct (make_move_legal self a b _ Hb Hs Ha Hc Hp Hturn Hv)
    as (board' & Hmv & Hm).
  exists (win_checks self (king_symbol c) b board').
  split; [exact Hm|].
  rewrite win_checks_board. unfold win_checks, get_game_state, get_turn.
  rewrite Hcenter.
  unfold out_of_turn in Hturn.
  destruct c, (_turn self); simpl in Hturn; try discriminate; simpl; auto.
Qed.

Lemma king_to_center_wins_witness :
  exists self',
    make_move hill_before "e3" "d4" = Ok (true, self')
    /\ get_game_state self' = won WHITE
    /\ WHITE = get_turn hill_before
    /\ get_turn self' = get_turn hill_before
    /\ move_piece (_board hill_before) "e3" "d4" = Ok (_board self').
Proof.
  apply (king_to_center_wins hill_before "e3" "d4" WHITE); reflexivity.
Defined.

(** C5.  The turn.  A new game has white to move.  A call of [make_move]
    hands the turn to the other side exactly when it returns [True] and the
    game state after the call is still [UNFINISHED]; a refused call and a
    call that ends the game leave the turn as it was. *)
Theorem turn_toggles :
  get_turn ChessVar_init = WHITE
  /\ forall self a b r self',
       board_ok (_board self) = true ->
       make_move self a b = Ok (r, self') ->
       get_turn self'
       = if r && GameState_eqb (get_game_state self') UNFINISHED
         then opponent (get_turn self) else get_turn self.
Proof.
  split; [reflexivity|].
  intros self a b r self' Hb Hm.
  destruct (make_move_cases self a b Hb)
    as [Hf | (piece & fx & fy & tx & ty & _ & _ & _ & _ & _ & _ & _ & Ht)].
  - rewrite Hf in Hm. injection Hm as <- <-. reflexivity.
  - rewrite Ht in Hm. injection Hm as <- <-.
    unfold get_turn, get_game_state. simpl. apply win_checks_turn.
Qed.

Lemma turn_toggles_witness :
  get_turn hill_won
  = if true && GameState_eqb (get_game_state hill_won) UNFINISHED
    then opponent (get_turn hill_before) else get_turn hill_before.
Proof.
  apply (proj2 turn_toggles hill_before "e3" "d4" true hill_won); reflexivity.
Defined.

(** C6.  An empty origin.  In an unfinished game, for two squares of the
    board, a call whose origin square holds the empty marker returns
    [False] (and leaves the object as it was). *)
Theorem empty_origin_refused self a b :
  board_ok (_board self) = true ->
  GameState_eqb (get_game_state self) UNFINISHED = true ->
  is_within_bounds a = true -> is_within_bounds b = true ->
  get_piece_at (_board self) a = Ok " " ->
  make_move self a b = Ok (false, self).
Proof.
  intros Hb Hs Ha Hc Hp.
  destruct (make_move_cases self a b Hb)
    as [Hf | (piece & fx & fy & tx & ty & _ & Hia & _ & Hp' & _ & _ & Hv & _)].
  - exact Hf.
  - rewrite (get_piece_at_cell _ _ _ _ Hia), Hp' in Hp. injection Hp as ->.
    destruct (is_valid_move_empty _ _ _ Hv).
Qed.

Lemma empty_origin_refused_witness :
  make_move ChessVar_init "e4" "e5" = Ok (false, ChessVar_init).
Proof.
  apply (empty_origin_refused ChessVar_init "e4" "e5"); reflexivity.
Defined.

(** ** The effect of a move on the grid *)

Lemma symbols_cases v :
  str_in v symbols = true -> In v symbols.
Proof.
  unfold str_in, symbols. simpl. rewrite !orb_true_iff, !String.eqb_eq.
  intros H. repeat (destruct H as [H | H]; [ subst; auto 20 | ]).
  discriminate.
Qed.

(** No piece may legally move onto its own square: the destination then
    holds a piece of the mover's colour. *)
Lemma is_valid_move_same_square board a piece :
  board_ok board = true ->
  get_piece_at board a = Ok piece ->
  is_valid_move (Piece_init piece) a a board <> Ok true.
Proof.
  intros Hb Hp.
  destruct (notation_to_index a) as [[fx fy]|] eqn:Hia.
  - destruct (notation_to_index_shape _ _ _ Hia) as [Hf _].
    destruct (cell_grid_get _ fx fy Hb Hf) as (piece' & _ & Hp' & Hsym).
    pose proof Hp as Hq.
    rewrite (get_piece_at_cell _ _ _ _ Hia), Hp' in Hq. injection Hq as ->.
    unfold is_valid_move. rewrite Hia, Hp. simpl.
    apply symbols_cases in Hsym. unfold symbols in Hsym.
    split_in Hsym; simpl; discriminate.
  - unfold is_valid_move. rewrite Hia. discriminate.
Qed.

Lemma moved_grid_get board fi fj ti tj v p q :
  board_ok board = true -> str_in v symbols = true ->
  (fi < 8)%nat -> (fj < 8)%nat -> (ti < 8)%nat -> (tj < 8)%nat ->
  grid_get (grid_set (grid_set board ti tj v) fi fj " ") p q
  = if decide ((p, q) = (fi, fj)) then Some " "
    else if decide ((p, q) = (ti, tj)) then Some v
    else grid_get board p q.
Proof.
  intros Hb Hv Hfi Hfj Hti Htj.
  pose proof (board_ok_set board ti tj v Hb Hv) as Hb1.
  destruct (decide ((p, q) = (fi, fj))) as [E|E].
  - injection E as -> ->. apply grid_get_set_eq; auto.
  - rewrite grid_get_set_ne by congruence.
    destruct (decide ((p, q) = (ti, tj))) as [E'|E'].
    + injection E' as -> ->. apply grid_get_set_eq; auto.
    + apply grid_get_set_ne. congruence.
Qed.

(** Reading a square of the board by its notation and by its indices. *)
Lemma get_piece_at_grid_get board s x y :
  board_ok board = true ->
  notation_to_index s = Some (x, y) ->
  exists v, get_piece_at board s = Ok v
            /\ grid_get board (Z.to_nat x) (Z.to_nat y) = Some v.
Proof.
  intros Hb Hi.
  destruct (notation_to_index_shape _ _ _ Hi) as [Hon _].
  destruct (cell_grid_get _ x y Hb Hon) as (v & Hg & Hc & _).
  exists v. rewrite (get_piece_at_cell _ _ _ _ Hi). auto.
Qed.

Lemma index_nat_inj s1 s2 x1 y1 x2 y2 :
  notation_to_index s1 = Some (x1, y1) ->
  notation_to_index s2 = Some (x2, y2) ->
  (Z.to_nat x1, Z.to_nat y1) = (Z.to_nat x2, Z.to_nat y2) -> s1 = s2.
Proof.
  intros H1 H2 E.
  destruct (notation_to_index_shape _ _ _ H1) as [[? ?] _].
  destruct (notation_to_index_shape _ _ _ H2) as [[? ?] _].
  injection E as Ex Ey.
  assert (x1 = x2) by lia. assert (y1 = y2) by lia. subst.
  eapply notation_to_index_inj; eauto.
Qed.

(** C8.  The frame of a move.  After a call that returns [True], the
    destination square holds what the origin square held before the call,
    the origin square is empty, the two squares are distinct, and each of
    the other sixty-two squares holds what it held before. *)
Theorem make_move_frame self a b self' :
  board_ok (_board self) = true ->
  make_move self a b = Ok (true, self') ->
  a <> b
  /\ is_within_bounds a = true /\ is_within_bounds b = true
  /\ (exists piece, get_piece_at (_board self) a = Ok piece
                    /\ get_piece_at (_board self') b = Ok piece)
  /\ get_piece_at (_board self') a = Ok " "
  /\ forall s, is_within_bounds s = true -> s <> a -> s <> b ->
       get_piece_at (_board self') s = get_piece_at (_board self) s.
Proof.
  intros Hb Hm.
  destruct (make_move_cases self a b Hb)
    as [Hf | (piece & fx & fy & tx & ty & _ & Hia & Hic & Hp & Hsym & _ & Hv & Ht)].
  { rewrite Hf in Hm. discriminate. }
  rewrite Ht in Hm. injection Hm as <-. rewrite win_checks_board.
  destruct (notation_to_index_shape _ _ _ Hia) as [[Hfx Hfy] _].
  destruct (notation_to_index_shape _ _ _ Hic) as [[Htx Hty] _].
  assert (Hab : a <> b).
  { intros <-. eapply is_valid_move_same_square; eauto.
    rewrite (get_piece_at_cell _ _ _ _ Hia). exact Hp. }
  set (board' := grid_set _ _ _ _).
  assert (Hb' : board_ok board' = true).
  { apply board_ok_set; [apply board_ok_set; assumption | reflexivity]. }
  assert (Hread : forall s x y, notation_to_index s = Some (x, y) ->
            forall v,
              (if decide ((Z.to_nat x, Z.to_nat y) = (Z.to_nat fx, Z.to_nat fy))
               then Some " "
               else if decide ((Z.to_nat x, Z.to_nat y)
                               = (Z.to_nat tx, Z.to_nat ty))
                    then Some piece
                    else grid_get (_board self) (Z.to_nat x) (Z.to_nat y))
              = Some v ->
            get_piece_at board' s = Ok v).
  { intros s x y Hs v Hv'.
    destruct (get_piece_at_grid_get board' s x y Hb' Hs) as (w & Hw & Hg).
    unfold board' in Hg.
    rewrite moved_grid_get in Hg by (auto; lia).
    rewrite Hw. congruence. }
  split; [exact Hab|].
  split; [apply is_within_bounds_index; eauto|].
  split; [apply is_within_bounds_index; eauto|].
  split; [|split].
  - exists piece. split; [rewrite (get_piece_at_cell _ _ _ _ Hia); exact Hp|].
    apply (Hread b tx ty Hic).
    destruct (decide _) as [E|_]; [|destruct (decide _); congruence].
    destruct Hab. symmetry. eapply index_nat_inj; eauto.
  - apply (Hread a fx fy Hia). destruct (decide _); congruence.
  - intros s Hs Hsa Hsb.
    apply is_within_bounds_index in Hs as (x & y & Hs).
    destruct (get_piece_at_grid_get (_board self) s x y Hb Hs) as (w & Hw & Hg).
    rewrite Hw. apply (Hread s x y Hs).
    destruct (decide _) as [E|_].
    { destruct Hsa. eapply index_nat_inj; eauto. }
    destruct (decide _) as [E|_].
    { destruct Hsb. eapply index_nat_inj; eauto. }
    exact Hg.
Qed.

Lemma make_move_frame_witness :
  "e3" <> "d4"
  /\ is_within_bounds "e3" = true /\ is_within_bounds "d4" = true
  /\ (exists piece, get_piece_at (_board hill_before) "e3" = Ok piece
                    /\ get_piece_at (_board hill_won) "d4" = Ok piece)
  /\ get_piece_at (_board hill_won) "e3" = Ok " "
  /\ forall s, is_within_bounds s = true -> s <> "e3" -> s <> "d4" ->
       get_piece_at (_board hill_won) s = get_piece_at (_board hill_before) s.
Proof.
  apply (make_move_frame hill_before "e3" "d4" hill_won); reflexivity.
Defined.

(** ** Sliding pieces *)

Lemma pattern_on_line kind fx fy tx ty :
  pattern_matches kind fx fy tx ty = true -> on_line fx fy tx ty.
Proof.
  unfold pattern_matches, on_line.
  destruct (String.eqb kind "r"); [|destruct (String.eqb kind "b");
    [|destruct (String.eqb kind "q"); [|discriminate]]];
  rewrite ?orb_true_iff, ?Z.eqb_eq; tauto.
Qed.

(** For a rook, a bishop or a queen whose pattern matches, [is_valid_move]
    is the shared precheck followed by the path check. *)
Lemma sliding_is_valid_move board piece a b fx fy tx ty target :
  notation_to_index a = Some (fx, fy) ->
  notation_to_index b = Some (tx, ty) ->
  get_piece_at board b = Ok target ->
  pattern_matches (Py.lower piece) fx fy tx ty = true ->
  is_valid_move (Piece_init piece) a b board
  = if own_capture piece target then Ok false
    else _path_is_clear fx fy tx ty board.
Proof.
  intros Ha Hc Ht Hpat.
  unfold is_valid_move. rewrite Ha, Hc, Ht. simpl.
  fold (own_capture piece target).
  destruct (own_capture piece target); [reflexivity|].
  unfold pattern_matches in Hpat.
  destruct (String.eqb_spec (Py.lower piece) "r") as [E|_].
  { rewrite E. simpl. rewrite Hpat. reflexivity. }
  destruct (String.eqb_spec (Py.lower piece) "b") as [E|_].
  { rewrite E. simpl. rewrite Hpat. reflexivity. }
  destruct (String.eqb_spec (Py.lower piece) "q") as [E|_]; [|discriminate].
  rewrite E. simpl. rewrite Hpat. reflexivity.
Qed.

(** C7.  Obstruction.  Take a rook, bishop or queen of either colour and
    two squares of the board that match its pattern.  If some square
    strictly between the two is occupied, by whatever piece, the move is
    judged illegal.  If every square strictly between the two is empty, the
    path check passes whatever stands on the origin and on the destination,
    and the move is judged by the shared precheck alone. *)
Theorem sliding_move_obstructed board piece a b fx fy tx ty :
  board_ok board = true ->
  notation_to_index a = Some (fx, fy) ->
  notation_to_index b = Some (tx, ty) ->
  pattern_matches (Py.lower piece) fx fy tx ty = true ->
  ((exists k, 0 < k < span fx fy tx ty
              /\ cell board (fst (between fx fy tx ty k))
                            (snd (between fx fy tx ty k)) <> Ok " ") ->
   _path_is_clear fx fy tx ty board = Ok false
   /\ is_valid_move (Piece_init piece) a b board = Ok false)
  /\ ((forall k, 0 < k < span fx fy tx ty ->
         cell board (fst (between fx fy tx ty k))
                    (snd (between fx fy tx ty k)) = Ok " ") ->
      _path_is_clear fx fy tx ty board = Ok true
      /\ exists target,
           get_piece_at board b = Ok target
           /\ is_valid_move (Piece_init piece) a b board
              = Ok (negb (own_capture piece target))).
Proof.
  intros Hb Ha Hc Hpat.
  destruct (notation_to_index_shape _ _ _ Ha) as [Hf _].
  destruct (notation_to_index_shape _ _ _ Hc) as [Ht _].
  destruct (get_piece_at_grid_get board b tx ty Hb Hc) as (target & Htarget & _).
  pose proof (pattern_on_line _ _ _ _ _ Hpat) as Hl.
  destruct (path_is_clear_returns board fx fy tx ty Hb Hf Ht Hl) as (r & Hr & Hspec).
  rewrite (sliding_is_valid_move board piece a b fx fy tx ty target Ha Hc
             Htarget Hpat), Hr.
  split.
  - intros (k & Hk & Hocc).
    destruct r.
    + destruct Hocc. apply (proj1 Hspec eq_refl k Hk).
    + split; [reflexivity|]. destruct (own_capture piece target); reflexivity.
  - intros Hall. apply Hspec in Hall. subst r.
    split; [reflexivity|]. exists target. split; [exact Htarget|].
    destruct (own_capture piece target); reflexivity.
Qed.

Lemma sliding_move_obstructed_witness :
  (_path_is_clear 7 0 4 0 Board_init = Ok false
   /\ is_valid_move (Piece_init "R") "a1" "a4" Board_init = Ok false)
  /\ (_path_is_clear 7 3 3 7 (_board hill_before) = Ok true
      /\ exists target,
           get_piece_at (_board hill_before) "h5" = Ok target
           /\ is_valid_move (Piece_init "Q") "d1" "h5" (_board hill_before)
              = Ok (negb (own_capture "Q" target))).
Proof.
  split.
  - apply (proj1 (sliding_move_obstructed Board_init "R" "a1" "a4" 7 0 4 0
                    eq_refl eq_refl eq_refl eq_refl)).
    exists 1. split; [unfold span; simpl; lia | vm_compute; discriminate].
  - apply (proj2 (sliding_move_obstructed (_board hill_before) "Q" "d1" "h5"
                    7 3 3 7 eq_refl eq_refl eq_refl eq_refl)).
    intros k Hk. unfold span in Hk. simpl in Hk.
    assert (E : k = 1 \/ k = 2 \/ k = 3) by lia.
    destruct E as [-> | [-> | ->]]; reflexivity.
Defined.

(** C10.  Termination of the path check.  For every board and every two
    squares of the board on a common rank, file or diagonal,
    [Piece._path_is_clear] stops and returns a boolean: six iterations of
    its loop are always enough, and any larger allowance gives the same
    answer. *)
Theorem path_is_clear_terminates board fx fy tx ty :
  board_ok board = true ->
  on_board fx fy -> on_board tx ty -> on_line fx fy tx ty ->
  exists r : bool,
    _path_is_clear fx fy tx ty board = Ok r
    /\ forall fuel, (6 <= fuel)%nat ->
         _path_is_clear_fuel fuel fx fy tx ty board = Ok r.
Proof.
  intros Hb Hf Ht Hl.
  destruct (path_is_clear_line board fx fy tx ty Hb Hf Ht Hl) as (r & Hr & _).
  exists r. split; [|exact Hr].
  apply Hr. unfold path_fuel. lia.
Qed.

Lemma path_is_clear_terminates_witness :
  exists r : bool,
    _path_is_clear 7 0 0 7 Board_init = Ok r
    /\ forall fuel, (6 <= fuel)%nat ->
         _path_is_clear_fuel fuel 7 0 0 7 Board_init = Ok r.
Proof.
  apply (path_is_clear_terminates Board_init 7 0 0 7).
  - reflexivity.
  - unfold on_board. lia.
  - unfold on_board. lia.
  - unfold on_line. simpl. lia.
Defined.

(** C9.  The occupant query on malformed notation.  [get_piece_at] unpacks
    the [None] that [notation_to_index] returns for a string that is no
    square of the board, and so raises [TypeError] on every such string,
    whatever the board: for instance on ["z9"], on the empty string and on
    a string of three characters.  On a square of the board it returns the
    occupant. *)
Theorem get_piece_at_malformed_raises :
  (forall board s,
      is_within_bounds s = true \/ get_piece_at board s = Raise TypeError)
  /\ get_piece_at Board_init "z9" = Raise TypeError
  /\ get_piece_at Board_init "" = Raise TypeError
  /\ get_piece_at Board_init "e22" = Raise TypeError
  /\ get_piece_at Board_init "e2" = Ok "P".
Proof.
  split; [|repeat split].
  intros board s. unfold get_piece_at.
  destruct (notation_to_index s) as [[x y]|] eqn:Hi; [left|right; reflexivity].
  apply is_within_bounds_index. eauto.
Qed.

(** ** Kings *)

Example queen_raid_plays :
  play ChessVar_init queen_raid = Ok (repeat true 6, raid_before)
  /\ make_move raid_before "f7" "e8" = Ok (true, raid_won).
Proof. split; reflexivity. Qed.

Lemma king_symbol_eq c : (if Color_eqb c WHITE then "K" else "k") = king_symbol c.
Proof. destruct c; reflexivity. Qed.

Lemma king_exists_grid_get board c :
  king_exists board c = true
  <-> exists i j, grid_get board i j = Some (king_symbol c).
Proof.
  unfold king_exists. rewrite king_symbol_eq, existsb_exists. split.
  - intros (row & Hin & Hex). apply existsb_exists in Hex as (v & Hv & E).
    apply String.eqb_eq in E. subst v.
    apply list_elem_of_In, list_elem_of_lookup in Hin as [i Hi].
    apply list_elem_of_In, list_elem_of_lookup in Hv as [j Hj].
    exists i, j. unfold grid_get. rewrite Hi. exact Hj.
  - intros (i & j & H). unfold grid_get in H.
    destruct (board !! i) as [row|] eqn:Hi; [|discriminate].
    exists row. split.
    + apply list_elem_of_In, list_elem_of_lookup. eauto.
    + apply existsb_exists. exists (king_symbol c). split.
      * apply list_elem_of_In, list_elem_of_lookup. eauto.
      * apply String.eqb_refl.
Qed.

Lemma grid_get_bounds board i j v :
  board_ok board = true -> grid_get board i j = Some v ->
  (i < 8)%nat /\ (j < 8)%nat.
Proof.
  intros Hb H. unfold grid_get in H.
  destruct (board !! i) as [row|] eqn:Hi; [|discriminate].
  pose proof (proj1 (board_ok_spec board) Hb) as [Hlen _].
  destruct (board_ok_row _ _ _ Hb Hi) as [Hrl _].
  apply lookup_lt_Some in Hi, H. lia.
Qed.

Lemma king_exists_on_board board c :
  board_ok board = true ->
  king_exists board c = true <-> king_on_board board c.
Proof.
  intros Hb. rewrite king_exists_grid_get. unfold king_on_board. split.
  - intros (i & j & H).
    destruct (grid_get_bounds _ _ _ _ Hb H) as [Hi Hj].
    destruct (square_name_index (Z.of_nat i) (Z.of_nat j)) as (s & _ & Hs).
    { unfold on_board. lia. }
    exists s. split; [apply is_within_bounds_index; eauto|].
    destruct (get_piece_at_grid_get board s _ _ Hb Hs) as (v & Hv & Hg).
    rewrite !Nat2Z.id in Hg. congruence.
  - intros (s & Hs & Hp).
    apply is_within_bounds_index in Hs as (x & y & Hs).
    destruct (get_piece_at_grid_get board s _ _ Hb Hs) as (v & Hv & Hg).
    exists (Z.to_nat x), (Z.to_nat y). congruence.
Qed.

Lemma initial_king_unique c i j :
  grid_get Board_init i j = Some (king_symbol c) ->
  (i, j) = (match c with WHITE => 7%nat | BLACK => 0%nat end, 4%nat).
Proof.
  destruct c; simpl;
  do 8 (destruct i as [|i];
        [ do 8 (destruct j as [|j]; [ try discriminate; try reflexivity | ]);
          discriminate | ]);
  discriminate.
Qed.

Lemma kings_inv_init : kings_inv ChessVar_init.
Proof.
  split; [reflexivity|]. split.
  - intros c i j i' j' H1 H2.
    rewrite (initial_king_unique c i j H1), (initial_king_unique c i' j' H2).
    reflexivity.
  - intros _ []; reflexivity.
Qed.

Lemma king_symbol_not_empty c : " " <> king_symbol c.
Proof. destruct c; discriminate. Qed.

Lemma win_checks_unfinished self piece b board' :
  _game_state (win_checks self piece b board') = UNFINISHED ->
  forall c, king_exists board' c = true.
Proof.
  unfold win_checks.
  destruct (String.eqb piece "k" && str_in b center_squares); [discriminate|].
  destruct (String.eqb piece "K" && str_in b center_squares); [discriminate|].
  cbn [_game_state].
  destruct (king_exists board' WHITE) eqn:EW; simpl; [|discriminate].
  destruct (king_exists board' BLACK) eqn:EB; simpl; [|discriminate].
  intros _ []; assumption.
Qed.

Lemma make_move_kings_inv self a b r self' :
  kings_inv self -> make_move self a b = Ok (r, self') -> kings_inv self'.
Proof.
  intros (Hb & Huniq & Hboth) Hm.
  destruct (make_move_cases self a b Hb)
    as [Hf | (piece & fx & fy & tx & ty & _ & Hia & Hic & Hp & Hsym & _ & _ & Ht)].
  { rewrite Hf in Hm. injection Hm as <- <-. repeat split; assumption. }
  rewrite Ht in Hm. injection Hm as <- <-.
  destruct (notation_to_index_shape _ _ _ Hia) as [[Hfx Hfy] _].
  destruct (notation_to_index_shape _ _ _ Hic) as [[Htx Hty] _].
  destruct (cell_grid_get _ fx fy Hb (conj Hfx Hfy)) as (v & Hg & Hv & _).
  assert (v = piece) by congruence. subst v.
  split; [|split].
  - rewrite win_checks_board.
    apply board_ok_set; [apply board_ok_set; assumption | reflexivity].
  - rewrite win_checks_board. intros c i j i' j'.
    rewrite !moved_grid_get by (auto; lia).
    destruct (decide ((i, j) = _)) as [_|Nf];
      [intros [= E]; destruct (king_symbol_not_empty c E)|].
    destruct (decide ((i', j') = _)) as [_|Nf'];
      [intros _ [= E]; destruct (king_symbol_not_empty c E)|].
    destruct (decide ((i, j) = _)) as [Et|Nt];
    destruct (decide ((i', j') = _)) as [Et'|Nt'].
    + congruence.
    + intros [= ->] H. destruct Nf'. eapply Huniq; eauto.
    + intros H [= ->]. destruct Nf. eapply Huniq; eauto.
    + apply Huniq.
  - rewrite win_checks_board. apply win_checks_unfinished.
Qed.

Lemma play_kings_inv moves : forall self rs self',
  kings_inv self -> play self moves = Ok (rs, self') -> kings_inv self'.
Proof.
  induction moves as [|[a b] rest IH]; intros self rs self' Hinv Hplay.
  - simpl in Hplay. injection Hplay as <- <-. exact Hinv.
  - simpl in Hplay.
    destruct (make_move self a b) as [[r g]| |] eqn:Hm; simpl in Hplay;
      try discriminate.
    destruct (play g rest) as [[rs' g']| |] eqn:Hrest; simpl in Hplay;
      try discriminate.
    injection Hplay as <- <-.
    eapply IH; [|exact Hrest]. eapply make_move_kings_inv; eauto.
Qed.

Lemma reachable_kings_inv self : reachable self -> kings_inv self.
Proof.
  induction 1 as [|self a b r self' _ IH Hm].
  - apply kings_inv_init.
  - eapply make_move_kings_inv; eauto.
Qed.

Lemma win_checks_capture self piece b board' :
  (String.eqb piece "k" || String.eqb piece "K") && str_in b center_squares
  = false ->
  _game_state self = UNFINISHED ->
  _game_state (win_checks self piece b board')
  = if negb (king_exists board' WHITE) then BLACK_WON
    else if negb (king_exists board' BLACK) then WHITE_WON
    else UNFINISHED.
Proof.
  intros Hc Hs. unfold win_checks.
  destruct (String.eqb piece "k"), (String.eqb piece "K"),
    (str_in b center_squares); simpl in Hc; try discriminate; simpl;
    rewrite Hs; reflexivity.
Qed.

(** C4.  The king-capture check.  After a call that returns [True] and is
    no king-to-center win, the game state is [BLACK_WON] if no white king
    is left on the board, else [WHITE_WON] if no black king is left, else
    [UNFINISHED] as before; [king_exists] holds of a side exactly when some
    square of the board holds that side's king.  In particular, in a game
    played from the start, a legal move of a piece other than a king onto
    the square of the other side's king wins the game for the side that
    moved. *)
Theorem king_capture_check :
  (forall self a b self' piece,
      board_ok (_board self) = true ->
      make_move self a b = Ok (true, self') ->
      get_piece_at (_board self) a = Ok piece ->
      (String.eqb piece "k" || String.eqb piece "K")
        && str_in b center_squares = false ->
      get_game_state self'
      = if negb (king_exists (_board self') WHITE) then BLACK_WON
        else if negb (king_exists (_board self') BLACK) then WHITE_WON
        else UNFINISHED)
  /\ (forall board c,
        board_ok board = true ->
        king_exists board c = true <-> king_on_board board c)
  /\ (forall moves rs self a b self' piece,
        play ChessVar_init moves = Ok (rs, self) ->
        make_move self a b = Ok (true, self') ->
        get_piece_at (_board self) a = Ok piece ->
        Py.lower piece <> "k" ->
        get_piece_at (_board self) b
        = Ok (king_symbol (opponent (get_turn self))) ->
        get_game_state self' = won (get_turn self)).
Proof.
  split; [|split].
  - intros self a b self' piece Hb Hm Hp Hnc.
    destruct (make_move_cases self a b Hb)
      as [Hf | (piece' & fx & fy & tx & ty & Hs & Hia & _ & Hp' & _ & _ & _ & Ht)].
    { rewrite Hf in Hm. discriminate. }
    rewrite (get_piece_at_cell _ _ _ _ Hia), Hp' in Hp. injection Hp as ->.
    rewrite Ht in Hm. injection Hm as <-.
    unfold get_game_state. rewrite win_checks_board.
    apply win_checks_capture; assumption.
  - exact king_exists_on_board.
  - intros moves rs self a b self' piece Hplay Hm Hp Hnk Hcap.
    pose proof (play_kings_inv moves _ _ _ kings_inv_init Hplay)
      as (Hb & Huniq & Hboth).
    destruct (make_move_cases self a b Hb)
      as [Hf | (piece' & fx & fy & tx & ty & Hs & Hia & Hic & Hp' & Hsym & _ & _ & Ht)].
    { rewrite Hf in Hm. discriminate. }
    rewrite (get_piece_at_cell _ _ _ _ Hia), Hp' in Hp. injection Hp as ->.
    rewrite Ht in Hm. injection Hm as <-.
    destruct (notation_to_index_shape _ _ _ Hia) as [[Hfx Hfy] _].
    destruct (notation_to_index_shape _ _ _ Hic) as [[Htx Hty] _].
    destruct (cell_grid_get _ fx fy Hb (conj Hfx Hfy)) as (v & Hgf & Hv & _).
    assert (v = piece) by congruence. subst v.
    destruct (get_piece_at_grid_get _ b tx ty Hb Hic) as (w & Hw & Hgt).
    assert (w = king_symbol (opponent (get_turn self))) by congruence. subst w.
    assert (Hnot : forall c, piece <> king_symbol c).
    { intros [] ->; apply Hnk; reflexivity. }
    set (board' := grid_set _ _ _ _).
    assert (Hget : forall p q, grid_get board' p q
              = if decide ((p, q) = (Z.to_nat fx, Z.to_nat fy)) then Some " "
                else if decide ((p, q) = (Z.to_nat tx, Z.to_nat ty))
                     then Some piece
                     else grid_get (_board self) p q).
    { intros p q. unfold board'. apply moved_grid_get; auto; lia. }
    assert (Hmine : king_exists board' (get_turn self) = true).
    { apply king_exists_grid_get.
      pose proof (Hboth Hs (get_turn self)) as Hk.
      apply king_exists_grid_get in Hk as (i & j & Hk).
      exists i, j. rewrite Hget.
      destruct (decide _) as [[= -> ->]|_].
      { destruct (Hnot (get_turn self)). congruence. }
      destruct (decide _) as [[= -> ->]|_]; [|exact Hk].
      rewrite Hgt in Hk. injection Hk.
      destruct (get_turn self); discriminate. }
    assert (Htheirs : king_exists board' (opponent (get_turn self)) = false).
    { apply not_true_is_false. intros Hk.
      apply king_exists_grid_get in Hk as (i & j & Hk).
      rewrite Hget in Hk.
      destruct (decide _) as [_|_];
        [injection Hk as E; destruct (king_symbol_not_empty _ E)|].
      destruct (decide _) as [_|Nt];
        [injection Hk as E; destruct (Hnot _ E)|].
      destruct Nt. eapply Huniq; eauto. }
    unfold get_game_state, get_turn in *.
    rewrite (win_checks_capture self piece b board'); auto.
    + destruct (_turn self); simpl in *; rewrite ?Hmine, ?Htheirs; reflexivity.
    + destruct (String.eqb_spec piece "k") as [->|_];
        [destruct (Hnot BLACK eq_refl)|].
      destruct (String.eqb_spec piece "K") as [->|_];
        [destruct (Hnot WHITE eq_refl)|].
      reflexivity.
Qed.

Lemma king_capture_check_witness :
  get_game_state raid_won = won (get_turn raid_before).
Proof.
  apply (proj2 (proj2 king_capture_check) queen_raid (repeat true 6)
           raid_before "f7" "e8" raid_won "Q").
  - reflexivity.
  - reflexivity.
  - reflexivity.
  - vm_compute. discriminate.
  - reflexivity.
Defined.

(** ** The fuel of the path walk is never the limit *)

Lemma string_of_uint_empty u : NilEmpty.string_of_uint u = "" -> u = Decimal.Nil.
Proof. destruct u; simpl; congruence. Qed.

(** A decimal numeral of one character among [1..8] is that digit. *)
Lemma str_one_digit n r :
  Py.str n = String r "" -> Py.char_in r "12345678" = true -> 1 <= n <= 8.
Proof.
  unfold Py.str. destruct n as [|p|p]; simpl.
  - intros [= <-]. discriminate.
  - pose proof (DecimalPos.Unsigned.of_to p) as Hp.
    destruct (Pos.to_uint p) as [|u|u|u|u|u|u|u|u|u|u];
      [simpl in Hp; discriminate | ..]; simpl;
      intros [= <- Hu]; try discriminate;
      apply string_of_uint_empty in Hu; subst u; simpl in Hp;
      try discriminate; injection Hp as <-; intros _; lia.
  - intros [= <- _]. discriminate.
Qed.

Lemma chr_file y file c rest :
  Py.chr (y + Py.ord "a") = Ok file ->
  file = String c rest -> Py.char_in c "abcdefgh" = true -> 0 <= y <= 7.
Proof.
  unfold Py.chr.
  destruct ((y + Py.ord "a" <? 0) || (1114111 <? y + Py.ord "a"));
    [discriminate|].
  destruct (Z.ltb_spec (y + Py.ord "a") 256) as [Hlt|_].
  - intros [= <-] [= <- _] Hc.
    assert (Hn : (Z.to_N (y + Py.ord "a") < 256)%N \/ y + Py.ord "a" < 0) by lia.
    destruct Hn as [Hn|Hn].
    + pose proof (N_ascii_embedding _ Hn) as He.
      apply char_in_files in Hc.
      change (Py.ord "a") with 97 in *.
      split_in Hc;
        match goal with
        | H : ?ch = ascii_of_N _ |- _ =>
            rewrite <- H in He; simpl in He; lia
        end.
    + change (Py.ord "a") with 97 in *.
      replace (Z.to_N (y + 97)) with 0%N in Hc by lia.
      discriminate.
  - intros [= <-] [= <- _]. discriminate.
Qed.

(** The square the loop asks for is a square of the board, or the query
    raises. *)
Lemma walk_square_on_board board x y file v :
  Py.chr (y + Py.ord "a") = Ok file ->
  get_piece_at board (file ++ Py.str (8 - x)) = Ok v ->
  on_board x y.
Proof.
  intros Hfile Hget. unfold get_piece_at in Hget.
  destruct (notation_to_index (file ++ Py.str (8 - x))) as [[r c]|] eqn:Hi;
    [|discriminate].
  clear Hget.
  assert (Hshape : exists c0, file = String c0 "").
  { revert Hfile. unfold Py.chr.
    repeat match goal with |- context [if ?b then _ else _] => destruct b end;
      intros [= <-]; eauto. }
  destruct Hshape as (c0 & ->).
  change (String c0 "" ++ Py.str (8 - x))%string
    with (String c0 (Py.str (8 - x))) in Hi.
  unfold notation_to_index in Hi.
  destruct (Py.str (8 - x)) as [|c1 [|]] eqn:Hstr; try discriminate.
  destruct (Py.char_in c0 "abcdefgh") eqn:E0; try discriminate.
  destruct (Py.char_in c1 "12345678") eqn:E1; try discriminate.
  pose proof (str_one_digit _ _ Hstr E1).
  pose proof (chr_file y _ c0 "" Hfile eq_refl E0).
  unfold on_board. lia.
Qed.

Lemma getitem_no_timeout {A} (l : list A) i : Py.getitem l i <> OutOfFuel.
Proof.
  unfold Py.getitem.
  destruct (_ && _); [destruct (l !! _)|]; discriminate.
Qed.

Lemma get_piece_at_no_timeout board s : get_piece_at board s <> OutOfFuel.
Proof.
  unfold get_piece_at.
  destruct (notation_to_index s) as [[x y]|]; [|discriminate].
  destruct (Py.getitem board x) as [row| |] eqn:E; simpl;
    [apply getitem_no_timeout | discriminate | ].
  destruct (getitem_no_timeout _ _ E).
Qed.

Lemma chr_no_timeout n : Py.chr n <> OutOfFuel.
Proof.
  unfold Py.chr.
  repeat match goal with |- context [if ?b then _ else _] => destruct b end;
    discriminate.
Qed.

(** With a step that is not null the walk stops: at its destination, at an
    occupied square, or by raising at the first square off the board.  A
    fuel above the room left ahead is never exhausted, and any larger fuel
    gives the same outcome. *)
Lemma path_walk_fuel board sx sy tx ty :
  -1 <= sx <= 1 -> -1 <= sy <= 1 -> (sx, sy) <> (0, 0) ->
  forall fuel x y,
    (1 <= fuel)%nat ->
    (on_board x y -> room sx sy x y < Z.of_nat fuel) ->
    exists r,
      r <> OutOfFuel
      /\ forall fuel', (fuel <= fuel')%nat ->
           path_walk fuel' x y sx sy tx ty board = r.
Proof.
  intros Hsx Hsy Hne.
  induction fuel as [|fuel IH]; intros x y Hpos Hroom; [lia|].
  destruct ((x =? tx) && (y =? ty)) eqn:Hat.
  { exists (Ok true). split; [discriminate|].
    intros fuel' _. destruct fuel'; simpl; rewrite Hat; reflexivity. }
  destruct (Py.chr (y + Py.ord "a")) as [file| |] eqn:Hfile.
  2:{ exists (Raise e). split; [discriminate|].
      intros fuel' Hf. destruct fuel'; [lia|]. simpl.
      rewrite Hat, Hfile. reflexivity. }
  2:{ destruct (chr_no_timeout _ Hfile). }
  destruct (get_piece_at board (file ++ Py.str (8 - x))) as [v| |] eqn:Hget.
  2:{ exists (Raise e). split; [discriminate|].
      intros fuel' Hf. destruct fuel'; [lia|]. simpl.
      rewrite Hat, Hfile. simpl. rewrite Hget. reflexivity. }
  2:{ destruct (get_piece_at_no_timeout _ _ Hget). }
  destruct (String.eqb v " ") eqn:Hv.
  2:{ exists (Ok false). split; [discriminate|].
      intros fuel' Hf. destruct fuel'; [lia|]. simpl.
      rewrite Hat, Hfile. simpl. rewrite Hget. simpl. rewrite Hv. reflexivity. }
  pose proof (walk_square_on_board _ _ _ _ _ Hfile Hget) as Hon.
  specialize (Hroom Hon).
  assert (Hstep : room sx sy (x + sx) (y + sy) = room sx sy x y - 1
                  /\ 1 <= room sx sy x y).
  { destruct Hon as [? ?]. unfold room.
    destruct (unit_cases _ Hsx) as [-> | [-> | ->]];
    destruct (unit_cases _ Hsy) as [-> | [-> | ->]]; simpl;
      try lia; congruence. }
  destruct (IH (x + sx) (y + sy)) as (r & Hr & Hall); [lia | lia |].
  exists r. split; [exact Hr|].
  intros fuel' Hf. destruct fuel'; [lia|]. simpl.
  rewrite Hat, Hfile. simpl. rewrite Hget. simpl. rewrite Hv. simpl.
  apply Hall. lia.
Qed.

(** [path_fuel] iterations are enough for every call of [_path_is_clear],
    whatever its arguments: the call never ends for want of fuel, and more
    fuel changes nothing. *)
Lemma path_fuel_enough fx fy tx ty board :
  _path_is_clear fx fy tx ty board <> OutOfFuel
  /\ forall fuel, (path_fuel <= fuel)%nat ->
       _path_is_clear_fuel fuel fx fy tx ty board
       = _path_is_clear fx fy tx ty board.
Proof.
  unfold _path_is_clear. setoid_rewrite path_is_clear_fuel_steps.
  set (sx := sgn_step (tx - fx)). set (sy := sgn_step (ty - fy)).
  destruct (Z.eq_dec sx 0) as [Ex|Ex]; [destruct (Z.eq_dec sy 0) as [Ey|Ey]|].
  - assert (tx = fx /\ ty = fy) as [-> ->].
    { unfold sx, sy in *.
      destruct (sgn_step_cases (tx - fx)) as [[? ?] | [[? ?] | [? ?]]];
      destruct (sgn_step_cases (ty - fy)) as [[? ?] | [[? ?] | [? ?]]]; lia. }
    rewrite Ex, Ey, !Z.add_0_r.
    assert (Hw : forall fuel, path_walk fuel fx fy 0 0 fx fy board = Ok true).
    { intros fuel. destruct fuel; simpl; rewrite !Z.eqb_refl; reflexivity. }
    split; [rewrite Hw; discriminate|].
    intros fuel _. rewrite !Hw. reflexivity.
  - destruct (path_walk_fuel board sx sy tx ty) with
      (fuel := path_fuel) (x := fx + sx) (y := fy + sy) as (r & Hr & Hall).
    + unfold sx. destruct (sgn_step_cases (tx - fx)) as [[? ->] | [[? ->] | [? ->]]]; lia.
    + unfold sy. destruct (sgn_step_cases (ty - fy)) as [[? ->] | [[? ->] | [? ->]]]; lia.
    + congruence.
    + unfold path_fuel. lia.
    + intros [? ?]. unfold room, path_fuel.
      repeat match goal with |- context [if ?b then _ else _] => destruct b end;
        lia.
    + split; [rewrite (Hall path_fuel); auto|].
      intros fuel Hf. rewrite (Hall fuel Hf), (Hall path_fuel); auto.
  - destruct (path_walk_fuel board sx sy tx ty) with
      (fuel := path_fuel) (x := fx + sx) (y := fy + sy) as (r & Hr & Hall).
    + unfold sx. destruct (sgn_step_cases (tx - fx)) as [[? ->] | [[? ->] | [? ->]]]; lia.
    + unfold sy. destruct (sgn_step_cases (ty - fy)) as [[? ->] | [[? ->] | [? ->]]]; lia.
    + congruence.
    + unfold path_fuel. lia.
    + intros [? ?]. unfold room, path_fuel.
      repeat match goal with |- context [if ?b then _ else _] => destruct b end;
        lia.
    + split; [rewrite (Hall path_fuel); auto|].
      intros fuel Hf. rewrite (Hall fuel Hf), (Hall path_fuel); auto.
Qed.

(** ** Further properties of the board *)

Lemma notation_to_index_None s :
  is_within_bounds s = false <-> notation_to_index s = None.
Proof.
  split.
  - intros H. destruct (notation_to_index s) as [[x y]|] eqn:E; [|reflexivity].
    assert (is_within_bounds s = true) by (apply is_within_bounds_index; eauto).
    congruence.
  - intros H. destruct (is_within_bounds s) eqn:E; [|reflexivity].
    apply is_within_bounds_index in E as (x & y & E). congruence.
Qed.

(** X1.  The two validators of [Board] agree: [is_within_bounds] accepts a
    string exactly when [notation_to_index] returns a pair, and that pair
    is an index pair of the grid: row and column between 0 and 7. *)
Theorem bounds_agree_with_index s :
  (is_within_bounds s = true <-> notation_to_index s <> None)
  /\ (forall x y, notation_to_index s = Some (x, y) ->
        is_within_bounds s = true /\ 0 <= x <= 7 /\ 0 <= y <= 7).
Proof.
  split.
  - rewrite <- notation_to_index_None.
    destruct (is_within_bounds s); split; congruence.
  - intros x y H. split.
    + apply is_within_bounds_index. eauto.
    + apply (notation_to_index_shape _ _ _ H).
Qed.

(** X2.  Round trip between notation and indices.  The name the program
    builds for an index pair of the board, [chr(y + ord('a')) + str(8 - x)],
    is read back by [notation_to_index] as that pair; and a notation that
    [notation_to_index] reads as a pair is the name built for that pair. *)
Theorem notation_round_trip :
  (forall x y, 0 <= x <= 7 -> 0 <= y <= 7 ->
     exists s, square_name x y = Ok s /\ notation_to_index s = Some (x, y))
  /\ (forall s x y, notation_to_index s = Some (x, y) ->
        square_name x y = Ok s).
Proof.
  split.
  - intros x y Hx Hy. apply square_name_index. split; assumption.
  - intros s x y H. apply (notation_to_index_shape _ _ _ H).
Qed.

Lemma notation_round_trip_witness :
  exists s, square_name 6 4 = Ok s /\ notation_to_index s = Some (6, 4).
Proof. apply (proj1 notation_round_trip 6 4); lia. Defined.

Lemma in_bounds_all_squares s :
  is_within_bounds s = true <-> In s all_squares.
Proof.
  split.
  - unfold is_within_bounds.
    destruct s as [|c0 [|c1 [|]]]; try discriminate.
    destruct (Py.char_in c0 "abcdefgh") eqn:E0; try discriminate.
    destruct (Py.char_in c1 "12345678") eqn:E1; try discriminate.
    intros _. apply char_in_files in E0. apply char_in_ranks in E1.
    split_in E0; split_in E1; vm_compute; tauto.
  - intros H. vm_compute in H.
    repeat (destruct H as [<- | H]; [reflexivity|]). destruct H.
Qed.

(** X3.  The board has exactly sixty-four squares: the strings accepted by
    [is_within_bounds] are the sixty-four pairwise distinct names a8, b8,
    ..., h1, and no other string. *)
Theorem sixty_four_squares :
  length all_squares = 64%nat
  /\ NoDup all_squares
  /\ forall s, is_within_bounds s = true <-> In s all_squares.
Proof.
  split; [reflexivity|]. split; [|exact in_bounds_all_squares].
  apply (bool_decide_unpack _). vm_compute. exact I.
Qed.

(** X4.  On a well-shaped board the occupant query answers for each of the
    sixty-four squares, with one of the thirteen symbols. *)
Theorem get_piece_at_in_bounds board s :
  board_ok board = true -> is_within_bounds s = true ->
  exists v, get_piece_at board s = Ok v /\ In v symbols.
Proof.
  intros Hb Hs. apply is_within_bounds_index in Hs as (x & y & Hs).
  destruct (notation_to_index_shape _ _ _ Hs) as [Hon _].
  destruct (cell_grid_get _ x y Hb Hon) as (v & _ & Hv & Hsym).
  exists v. rewrite (get_piece_at_cell _ _ _ _ Hs).
  split; [exact Hv | apply symbols_cases; exact Hsym].
Qed.

Lemma get_piece_at_in_bounds_witness :
  exists v, get_piece_at Board_init "d8" = Ok v /\ In v symbols.
Proof. apply (get_piece_at_in_bounds Board_init "d8"); reflexivity. Defined.

(** X5.  [move_piece] has no graceful failure: on a notation that is no
    square of the board it raises [TypeError] at the unpacking, before its
    own test for [None] is reached, whatever the grid. *)
Theorem move_piece_malformed_raises board a b :
  is_within_bounds a = false \/ is_within_bounds b = false ->
  move_piece board a b = Raise TypeError.
Proof.
  intros H. unfold move_piece.
  destruct (notation_to_index a) as [[fx fy]|] eqn:Ha; [|reflexivity].
  destruct (notation_to_index b) as [[tx ty]|] eqn:Hb; [|reflexivity].
  destruct H as [H|H]; apply notation_to_index_None in H; congruence.
Qed.

Lemma move_piece_malformed_raises_witness :
  move_piece Board_init "e2" "e9" = Raise TypeError.
Proof.
  apply (move_piece_malformed_raises Board_init "e2" "e9").
  right. reflexivity.
Defined.

(** Reading the grid left by the two assignments of [move_piece]. *)
Lemma moved_grid_read board a b fx fy tx ty piece s :
  board_ok board = true -> str_in piece symbols = true ->
  notation_to_index a = Some (fx, fy) ->
  notation_to_index b = Some (tx, ty) ->
  is_within_bounds s = true ->
  get_piece_at
    (grid_set (grid_set board (Z.to_nat tx) (Z.to_nat ty) piece)
              (Z.to_nat fx) (Z.to_nat fy) " ") s
  = if String.eqb s a then Ok " "
    else if String.eqb s b then Ok piece
    else get_piece_at board s.
Proof.
  intros Hb Hsym Ha Hc Hs.
  apply is_within_bounds_index in Hs as (x & y & Hs).
  destruct (notation_to_index_shape _ _ _ Ha) as [[Hfx Hfy] _].
  destruct (notation_to_index_shape _ _ _ Hc) as [[Htx Hty] _].
  set (board' := grid_set _ _ _ _).
  assert (Hb' : board_ok board' = true).
  { apply board_ok_set; [apply board_ok_set; assumption | reflexivity]. }
  destruct (get_piece_at_grid_get board' s x y Hb' Hs) as (w & Hw & Hg).
  destruct (get_piece_at_grid_get board s x y Hb Hs) as (w0 & Hw0 & Hg0).
  unfold board' in Hg. rewrite moved_grid_get in Hg by (auto; lia).
  rewrite Hw, Hw0.
  destruct (String.eqb_spec s a) as [->|Nsa].
  { assert (E : (x, y) = (fx, fy)) by congruence. injection E as -> ->.
    destruct (decide _); congruence. }
  destruct (decide _) as [E|_].
  { destruct Nsa. eapply index_nat_inj; eauto. }
  destruct (String.eqb_spec s b) as [->|Nsb].
  { assert (E : (x, y) = (tx, ty)) by congruence. injection E as -> ->.
    destruct (decide _); congruence. }
  destruct (decide _) as [E|_].
  { destruct Nsb. eapply index_nat_inj; eauto. }
  congruence.
Qed.

(** X6.  [move_piece] checks no legality.  For any two squares of a
    well-shaped board it returns; afterwards the origin is empty, the
    destination, if it is another square, holds what the origin held, every
    other square is as before, and the grid is still well-shaped.  So a
    move of a square onto itself empties that square: the piece is lost. *)
Theorem move_piece_effect board a b :
  board_ok board = true ->
  is_within_bounds a = true -> is_within_bounds b = true ->
  exists board' piece,
    move_piece board a b = Ok board'
    /\ board_ok board' = true
    /\ get_piece_at board a = Ok piece
    /\ get_piece_at board' a = Ok " "
    /\ (a <> b -> get_piece_at board' b = Ok piece)
    /\ forall s, is_within_bounds s = true -> s <> a -> s <> b ->
         get_piece_at board' s = get_piece_at board s.
Proof.
  intros Hb Ha Hc.
  pose proof Ha as Ha'. pose proof Hc as Hc'.
  apply is_within_bounds_index in Ha' as (fx & fy & Hia).
  apply is_within_bounds_index in Hc' as (tx & ty & Hic).
  destruct (notation_to_index_shape _ _ _ Hia) as [Hf _].
  destruct (cell_grid_get _ fx fy Hb Hf) as (piece & _ & Hp & Hsym).
  eexists _, piece.
  split; [apply (move_piece_grid _ a b fx fy tx ty piece Hb Hia Hic Hp)|].
  split; [apply board_ok_set; [apply board_ok_set; assumption | reflexivity]|].
  split; [rewrite (get_piece_at_cell _ _ _ _ Hia); exact Hp|].
  split; [|split].
  - rewrite (moved_grid_read _ a b fx fy tx ty piece a Hb Hsym Hia Hic Ha).
    rewrite String.eqb_refl. reflexivity.
  - intros Hab.
    rewrite (moved_grid_read _ a b fx fy tx ty piece b Hb Hsym Hia Hic Hc).
    destruct (String.eqb_spec b a); [congruence|].
    rewrite String.eqb_refl. reflexivity.
  - intros s Hs Hsa Hsb.
    rewrite (moved_grid_read _ a b fx fy tx ty piece s Hb Hsym Hia Hic Hs).
    destruct (String.eqb_spec s a); [congruence|].
    destruct (String.eqb_spec s b); [congruence|]. reflexivity.
Qed.

Lemma move_piece_effect_witness :
  exists board' piece,
    move_piece Board_init "e1" "e1" = Ok board'
    /\ board_ok board' = true
    /\ get_piece_at Board_init "e1" = Ok piece
    /\ get_piece_at board' "e1" = Ok " "
    /\ ("e1" <> "e1" -> get_piece_at board' "e1" = Ok piece)
    /\ forall s, is_within_bounds s = true -> s <> "e1" -> s <> "e1" ->
         get_piece_at board' s = get_piece_at Board_init s.
Proof. apply (move_piece_effect Board_init "e1" "e1"); reflexivity. Defined.

(** ** Further properties of the piece rules *)

Lemma in_bounds_symbol board s :
  board_ok board = true -> is_within_bounds s = true ->
  exists v, get_piece_at board s = Ok v /\ str_in v symbols = true.
Proof.
  intros Hb Hs. apply is_within_bounds_index in Hs as (x & y & Hs).
  destruct (notation_to_index_shape _ _ _ Hs) as [Hon _].
  destruct (cell_grid_get _ x y Hb Hon) as (v & _ & Hv & Hsym).
  exists v. rewrite (get_piece_at_cell _ _ _ _ Hs). auto.
Qed.

Lemma is_valid_move_unpack self a b board :
  notation_to_index a = None \/ notation_to_index b = None ->
  is_valid_move self a b board = Raise TypeError.
Proof.
  intros H. unfold is_valid_move.
  destruct (notation_to_index a) as [[fx fy]|] eqn:Ha; [|reflexivity].
  destruct (notation_to_index b) as [[tx ty]|] eqn:Hb; [|reflexivity].
  destruct H; congruence.
Qed.

(** X7.  [is_valid_move] has no graceful failure either: when the origin
    or the destination is no square of the board it raises [TypeError],
    for every piece and every grid. *)
Theorem is_valid_move_malformed_raises self a b board :
  is_within_bounds a = false \/ is_within_bounds b = false ->
  is_valid_move self a b board = Raise TypeError.
Proof.
  intros H. apply is_valid_move_unpack.
  destruct H as [H|H]; apply notation_to_index_None in H; auto.
Qed.

Lemma is_valid_move_malformed_raises_witness :
  is_valid_move (Piece_init "Q") "d1" "d0" Board_init = Raise TypeError.
Proof.
  apply (is_valid_move_malformed_raises (Piece_init "Q") "d1" "d0" Board_init).
  right. reflexivity.
Defined.

(** The shared precheck on two symbols: it fires exactly when the target
    is a piece of the mover's side. *)
Lemma own_capture_symbols piece target :
  In piece symbols -> In target symbols ->
  own_capture piece target = false ->
  piece = " " \/ target = " "
  \/ exists c, side_of piece = Some c /\ side_of target = Some (opponent c).
Proof.
  unfold symbols. intros Hp Ht.
  split_in Hp; split_in Ht; vm_compute; intros H; try discriminate;
    auto; right; right;
    first [ exists WHITE; split; reflexivity | exists BLACK; split; reflexivity ].
Qed.

(** X8.  No piece may take a piece of its own side.  A move judged legal
    ends on an empty square or on a square held by the other side. *)
Theorem legal_move_spares_own_side board piece a b :
  board_ok board = true -> In piece symbols ->
  is_valid_move (Piece_init piece) a b board = Ok true ->
  exists target,
    get_piece_at board b = Ok target
    /\ (target = " "
        \/ exists c, side_of piece = Some c
                     /\ side_of target = Some (opponent c)).
Proof.
  intros Hb Hp Hv.
  destruct (is_within_bounds b) eqn:Hc.
  2:{ apply notation_to_index_None in Hc.
      rewrite (is_valid_move_unpack _ a b board) in Hv by auto.
      discriminate. }
  destruct (in_bounds_symbol board b Hb Hc) as (target & Ht & Hsym).
  apply symbols_cases in Hsym.
  exists target. split; [exact Ht|].
  assert (Hown : own_capture piece target = false).
  { revert Hv. unfold is_valid_move.
    destruct (notation_to_index a) as [[fx fy]|]; [|discriminate].
    destruct (notation_to_index b) as [[tx ty]|]; [|discriminate].
    rewrite Ht. simpl. fold (own_capture piece target).
    destruct (own_capture piece target); [discriminate|reflexivity]. }
  destruct (own_capture_symbols piece target Hp Hsym Hown) as [-> | [-> | H]];
    auto.
  destruct (is_valid_move_empty _ _ _ Hv).
Qed.

Lemma legal_move_spares_own_side_witness :
  exists target,
    get_piece_at (_board raid_before) "e8" = Ok target
    /\ (target = " "
        \/ exists c, side_of "Q" = Some c
                     /\ side_of target = Some (opponent c)).
Proof.
  apply (legal_move_spares_own_side (_board raid_before) "Q" "f7" "e8").
  - reflexivity.
  - unfold symbols. simpl. tauto.
  - reflexivity.
Defined.

Lemma target_symbol board b target :
  board_ok board = true -> is_within_bounds b = true ->
  get_piece_at board b = Ok target -> In target symbols.
Proof.
  intros Hb Hc Ht.
  destruct (in_bounds_symbol board b Hb Hc) as (v & Hv & Hsym).
  apply symbols_cases. congruence.
Qed.

(** X9.  The knight.  A knight's move is judged legal exactly when it is
    two squares along one axis and one along the other, and the destination
    is not held by the knight's own side.  No other square is looked at:
    the knight jumps. *)
Theorem knight_rule board piece a b fx fy tx ty target :
  board_ok board = true -> In piece ["N"; "n"] ->
  notation_to_index a = Some (fx, fy) ->
  notation_to_index b = Some (tx, ty) ->
  get_piece_at board b = Ok target ->
  is_valid_move (Piece_init piece) a b board
  = Ok ((((Z.abs (tx - fx) =? 2) && (Z.abs (ty - fy) =? 1))
         || ((Z.abs (tx - fx) =? 1) && (Z.abs (ty - fy) =? 2)))
        && negb (own_capture piece target)).
Proof.
  intros Hb Hp Ha Hc Ht.
  assert (Hsym : In target symbols).
  { eapply target_symbol; eauto. apply is_within_bounds_index; eauto. }
  unfold is_valid_move. rewrite Ha, Hc, Ht.
  set (L := ((Z.abs (tx - fx) =? 2) && (Z.abs (ty - fy) =? 1))
            || ((Z.abs (tx - fx) =? 1) && (Z.abs (ty - fy) =? 2))).
  unfold symbols in Hsym.
  split_in Hp; split_in Hsym; simpl; fold L; destruct L; reflexivity.
Qed.

Lemma knight_rule_witness :
  is_valid_move (Piece_init "N") "b1" "c3" Board_init
  = Ok ((((Z.abs (5 - 7) =? 2) && (Z.abs (2 - 1) =? 1))
         || ((Z.abs (5 - 7) =? 1) && (Z.abs (2 - 1) =? 2)))
        && negb (own_capture "N" " ")).
Proof.
  apply (knight_rule Board_init "N" "b1" "c3" 7 1 5 2 " ");
    try reflexivity.
  simpl. tauto.
Defined.

(** X10.  The king.  A king's move is judged legal exactly when it goes to
    one of the eight neighbouring squares and that square is not held by
    the king's own side.  There is no test for check: the square may be
    attacked, or next to the other king. *)
Theorem king_rule board piece a b fx fy tx ty target :
  board_ok board = true -> In piece ["K"; "k"] ->
  notation_to_index a = Some (fx, fy) ->
  notation_to_index b = Some (tx, ty) ->
  get_piece_at board b = Ok target ->
  is_valid_move (Piece_init piece) a b board
  = Ok ((Z.max (Z.abs (tx - fx)) (Z.abs (ty - fy)) =? 1)
        && negb (own_capture piece target)).
Proof.
  intros Hb Hp Ha Hc Ht.
  assert (Hsym : In target symbols).
  { eapply target_symbol; eauto. apply is_within_bounds_index; eauto. }
  unfold is_valid_move. rewrite Ha, Hc, Ht.
  set (L := Z.max (Z.abs (tx - fx)) (Z.abs (ty - fy)) =? 1).
  unfold symbols in Hsym.
  split_in Hp; split_in Hsym; simpl; fold L; destruct L; reflexivity.
Qed.

Lemma king_rule_witness :
  is_valid_move (Piece_init "K") "e3" "d4" (_board hill_before)
  = Ok ((Z.max (Z.abs (4 - 5)) (Z.abs (3 - 4)) =? 1)
        && negb (own_capture "K" " ")).
Proof.
  apply (king_rule (_board hill_before) "K" "e3" "d4" 5 4 4 3 " ");
    try reflexivity.
  simpl. tauto.
Defined.

(** X11.  The sliding pieces keep to their lines.  A rook's move judged
    legal stays on its rank or its file, a bishop's on a diagonal, a
    queen's on one of the three. *)
Theorem sliding_pattern_required board piece a b fx fy tx ty :
  In piece ["R"; "r"; "B"; "b"; "Q"; "q"] ->
  notation_to_index a = Some (fx, fy) ->
  notation_to_index b = Some (tx, ty) ->
  is_valid_move (Piece_init piece) a b board = Ok true ->
  pattern_matches (Py.lower piece) fx fy tx ty = true.
Proof.
  intros Hp Ha Hc. unfold is_valid_move. rewrite Ha, Hc.
  destruct (get_piece_at board b) as [target| |]; simpl; try discriminate.
  split_in Hp; simpl;
    match goal with
    | |- (if ?c then _ else _) = _ -> _ => destruct c; [discriminate|]
    end;
    unfold pattern_matches; simpl;
    match goal with
    | |- (if ?c then _ else _) = _ -> _ => destruct c; [reflexivity|discriminate]
    end.
Qed.

Lemma sliding_pattern_required_witness :
  pattern_matches (Py.lower "Q") 1 5 0 4 = true.
Proof.
  apply (sliding_pattern_required (_board raid_before) "Q" "f7" "e8" 1 5 0 4);
    try reflexivity.
  simpl. tauto.
Defined.

(** The pawn branch of [is_valid_move], with the square in between read
    by its indices. *)
Lemma pawn_branch board piece a b fx fy tx ty target :
  board_ok board = true -> In piece ["P"; "p"] ->
  notation_to_index a = Some (fx, fy) ->
  notation_to_index b = Some (tx, ty) ->
  get_piece_at board b = Ok target ->
  let forward := if Py.isupper piece then -1 else 1 in
  let start_row := if Py.isupper piece then 6 else 1 in
  is_valid_move (Piece_init piece) a b board
  = if own_capture piece target then Ok false
    else if (ty - fy =? 0) && (tx - fx =? forward) then
      Ok (String.eqb target " ")
    else if (ty - fy =? 0) && (tx - fx =? 2 * forward)
            && (fx =? start_row) then
      let* mid := cell board (fx + forward) fy in
      Ok (String.eqb mid " " && String.eqb target " ")
    else if (Z.abs (ty - fy) =? 1) && (tx - fx =? forward) then
      Ok (negb (String.eqb target " ")
          && negb (Bool.eqb (Py.isupper target) (Py.isupper piece)))
    else Ok false.
Proof.
  intros Hb Hp Ha Hc Ht forward start_row.
  destruct (notation_to_index_shape _ _ _ Ha) as [[Hfx Hfy] _].
  assert (Hmid : fx = start_row ->
            (let* file := Py.chr (fy + Py.ord "a") in
             let* between :=
               get_piece_at board (file ++ Py.str (8 - (fx + forward))) in
             if String.eqb between " " then Ok (String.eqb target " ")
             else Ok false)
            = (let* mid := cell board (fx + forward) fy in
               Ok (String.eqb mid " " && String.eqb target " "))).
  { intros ->.
    assert (Hon : on_board (start_row + forward) fy).
    { unfold start_row, forward, on_board.
      destruct (Py.isupper piece); lia. }
    destruct (square_name_file _ _ Hon) as (file & Hfile & Hidx).
    rewrite Hfile. simpl. rewrite (get_piece_at_cell _ _ _ _ Hidx).
    destruct (cell board (start_row + forward) fy) as [mid| |]; simpl;
      try reflexivity.
    destruct (String.eqb mid " "); reflexivity. }
  unfold is_valid_move. rewrite Ha, Hc, Ht. cbn [bind].
  fold (own_capture (_piece_type (Piece_init piece)) target).
  change (_piece_type (Piece_init piece)) with piece.
  destruct (own_capture piece target); [reflexivity|].
  assert (Hlow : String.eqb (_piece_lower (Piece_init piece)) "p" = true).
  { split_in Hp; reflexivity. }
  rewrite Hlow. fold forward. fold start_row.
  destruct ((ty - fy =? 0) && (tx - fx =? forward)); [reflexivity|].
  destruct ((ty - fy =? 0) && (tx - fx =? 2 * forward) && (fx =? start_row))
    eqn:Hdouble; [|reflexivity].
  apply andb_true_iff in Hdouble as [_ Hs]. apply Z.eqb_eq in Hs.
  exact (Hmid Hs).
Qed.

(** X12.  The pawn.  A pawn's move always gets a verdict, and is judged
    legal in exactly three cases, "forward" being towards rank 8 for white
    and towards rank 1 for black: one square forward on its file onto an
    empty square; two squares forward on its file from its starting row,
    the square passed and the destination both empty; one square forward
    diagonally onto a piece of the other side.  It never takes straight
    ahead, never moves diagonally onto an empty square, never goes back. *)
Theorem pawn_rule board piece a b fx fy tx ty target :
  board_ok board = true -> In piece ["P"; "p"] ->
  notation_to_index a = Some (fx, fy) ->
  notation_to_index b = Some (tx, ty) ->
  get_piece_at board b = Ok target ->
  let forward := if Py.isupper piece then -1 else 1 in
  let start_row := if Py.isupper piece then 6 else 1 in
  (exists r : bool, is_valid_move (Piece_init piece) a b board = Ok r)
  /\ (is_valid_move (Piece_init piece) a b board = Ok true <->
      (ty = fy /\ tx = fx + forward /\ target = " ")
      \/ (ty = fy /\ tx = fx + 2 * forward /\ fx = start_row
          /\ cell board (fx + forward) fy = Ok " " /\ target = " ")
      \/ (Z.abs (ty - fy) = 1 /\ tx = fx + forward
          /\ exists c, side_of piece = Some c
                       /\ side_of target = Some (opponent c))).
Proof.
  intros Hb Hp Ha Hc Ht forward start_row.
  split.
  { apply is_valid_move_returns; auto; apply is_within_bounds_index; eauto. }
  assert (Hsym : In target symbols).
  { eapply target_symbol; eauto. apply is_within_bounds_index; eauto. }
  rewrite (pawn_branch board piece a b fx fy tx ty target Hb Hp Ha Hc Ht).
  fold forward. fold start_row.
  destruct (notation_to_index_shape _ _ _ Ha) as [[Hfx Hfy] _].
  assert (Hside : forall c, side_of piece = Some c ->
            side_of target = Some (opponent c) ->
            own_capture piece target = false
            /\ String.eqb target " " = false
            /\ Bool.eqb (Py.isupper target) (Py.isupper piece) = false).
  { unfold symbols in Hsym.
    split_in Hp; split_in Hsym; intros [] H1 H2; try discriminate;
      repeat split. }
  assert (Hopp : own_capture piece target = false ->
            String.eqb target " " = false ->
            Bool.eqb (Py.isupper target) (Py.isupper piece) = false ->
            exists c, side_of piece = Some c
                      /\ side_of target = Some (opponent c)).
  { unfold symbols in Hsym.
    split_in Hp; split_in Hsym; intros H1 H2 H3; try discriminate;
      first [ exists WHITE; split; reflexivity
            | exists BLACK; split; reflexivity ]. }
  assert (Hempty : own_capture piece " " = false).
  { split_in Hp; reflexivity. }
  destruct (Z.eqb_spec (ty - fy) 0) as [Ey|Ny];
  destruct (Z.eqb_spec (tx - fx) forward) as [Ex|Nx]; cbn [andb].
  - (* one square straight ahead *)
    destruct (own_capture piece target) eqn:Hown.
    + split; [discriminate|].
      intros [(_ & _ & ->) | [(_ & _ & _ & _ & ->) | (Habs & _)]];
        [congruence | congruence | lia].
    + split.
      * intros [= E]. apply String.eqb_eq in E. left. repeat split; auto; lia.
      * intros [(_ & _ & ->) | [(_ & E & _) | (Habs & _)]];
          [reflexivity | | lia].
        unfold forward in *. destruct (Py.isupper piece); lia.
  - (* straight, not one square *)
    destruct (own_capture piece target) eqn:Hown.
    + split; [discriminate|].
      intros [(_ & _ & ->) | [(_ & _ & _ & _ & ->) | (Habs & _)]];
        [congruence | congruence | lia].
    + destruct (Z.eqb_spec (tx - fx) (2 * forward)) as [E2|N2];
      destruct (Z.eqb_spec fx start_row) as [Es|Ns]; cbn [andb];
        try (replace (Z.abs (ty - fy) =? 1) with false
               by (symmetry; apply Z.eqb_neq; lia); cbn [andb];
             split; [discriminate|];
             intros [(_ & E & _) | [(_ & E & E' & _) | (Habs & _)]]; lia).
      destruct (cell board (fx + forward) fy) as [mid| |] eqn:Hmid;
        cbn [bind].
      * split.
        -- intros [= E]. apply andb_true_iff in E as [E1 E3].
           apply String.eqb_eq in E1, E3. subst.
           right. left. repeat split; auto; lia.
        -- intros [(_ & E & _) | [(_ & _ & _ & [= ->] & ->) | (Habs & _)]];
             [lia | reflexivity | lia].
      * split; [discriminate|].
        intros [(_ & E & _) | [(_ & _ & _ & E & _) | (Habs & _)]];
          [lia | discriminate | lia].
      * split; [discriminate|].
        intros [(_ & E & _) | [(_ & _ & _ & E & _) | (Habs & _)]];
          [lia | discriminate | lia].
  - (* one row forward, off the file *)
    destruct (own_capture piece target) eqn:Hown.
    + split; [discriminate|].
      intros [(E & _) | [(E & _) | (_ & _ & c & H1 & H2)]]; [lia | lia |].
      destruct (Hside c H1 H2) as (H & _). congruence.
    + replace ((tx - fx =? 2 * forward)) with false
        by (symmetry; apply Z.eqb_neq; unfold forward in *;
            destruct (Py.isupper piece); lia).
      cbn [andb].
      destruct (Z.eqb_spec (Z.abs (ty - fy)) 1) as [Ea|Na]; cbn [andb].
      * split.
        -- intros [= E]. apply andb_true_iff in E as [E1 E2].
           apply negb_true_iff in E1, E2.
           right. right. repeat split; auto; lia.
        -- intros [(E & _) | [(E & _) | (_ & _ & c & H1 & H2)]];
             [lia | lia |].
           destruct (Hside c H1 H2) as (_ & -> & ->). reflexivity.
      * split; [discriminate|].
        intros [(E & _) | [(E & _) | (E & _)]]; lia.
  - (* neither *)
    destruct (own_capture piece target) eqn:Hown.
    + split; [discriminate|].
      intros [(_ & E & _) | [(E & _) | (_ & E & _)]]; lia.
    + replace ((tx - fx =? 2 * forward)) with
        (tx - fx =? 2 * forward) by reflexivity.
      destruct ((tx - fx =? 2 * forward) && (fx =? start_row)); cbn [andb];
      destruct (Z.abs (ty - fy) =? 1); cbn [andb];
        (split; [discriminate|];
         intros [(_ & E & _) | [(E & _) | (_ & E & _)]]; lia).
Qed.

Lemma pawn_rule_witness :
  is_valid_move (Piece_init "P") "e2" "e4" Board_init = Ok true <->
  (4 = 4 /\ 4 = 6 + -1 /\ " " = " ")
  \/ (4 = 4 /\ 4 = 6 + 2 * -1 /\ 6 = 6
      /\ cell Board_init (6 + -1) 4 = Ok " " /\ " " = " ")
  \/ (Z.abs (4 - 4) = 1 /\ 4 = 6 + -1
      /\ exists c, side_of "P" = Some c /\ side_of " " = Some (opponent c)).
Proof.
  apply (proj2 (pawn_rule Board_init "P" "e2" "e4" 6 4 4 4 " " eq_refl
                  (or_introl eq_refl) eq_refl eq_refl eq_refl)).
Defined.

(** ** The advisory list of moves *)

Lemma for_each_flat_map {A} (l : list Z) (f : Z -> list A)
  (body : Z -> list A -> result (list A)) :
  (forall x acc, In x l -> body x acc = Ok (acc ++ f x)%list) ->
  forall acc, for_each l body acc = Ok (acc ++ flat_map f l)%list.
Proof.
  induction l as [|x l IH]; intros Hbody acc; simpl.
  - rewrite app_nil_r. reflexivity.
  - rewrite (Hbody x acc) by (left; reflexivity). simpl.
    rewrite IH by (intros; apply Hbody; right; assumption).
    rewrite app_assoc. reflexivity.
Qed.

Lemma in_range_8 x : In x (range 8) -> 0 <= x <= 7.
Proof.
  unfold range. simpl. intros H.
  repeat (destruct H as [<- | H]; [lia|]). destruct H.
Qed.

Lemma chr_square x y :
  0 <= y <= 7 ->
  exists file, Py.chr (y + Py.ord "a") = Ok file
               /\ (file ++ Py.str (8 - x))%string = square x y.
Proof.
  intros Hy. eexists. split.
  - unfold Py.chr. change (Py.ord "a") with 97.
    destruct (Z.ltb_spec (y + 97) 0); [lia|].
    destruct (Z.ltb_spec 1114111 (y + 97)); [lia|].
    destruct (Z.ltb_spec (y + 97) 256); [|lia]. reflexivity.
  - reflexivity.
Qed.

Lemma square_in_bounds x y :
  0 <= x <= 7 -> 0 <= y <= 7 -> is_within_bounds (square x y) = true.
Proof. intros Hx Hy. enum x Hx; enum y Hy; reflexivity. Qed.

Lemma filter_flat_map {A B} (p : B -> bool) (h : A -> list B) l :
  List.filter p (flat_map h l) = flat_map (fun x => List.filter p (h x)) l.
Proof.
  induction l as [|x l IH]; simpl; [reflexivity|].
  rewrite List.filter_app, IH. reflexivity.
Qed.

Lemma flat_map_if_filter {A B} (p : B -> bool) (g : A -> B) l :
  flat_map (fun x => if p (g x) then [g x] else []) l
  = List.filter p (map g l).
Proof.
  induction l as [|x l IH]; simpl; [reflexivity|].
  rewrite IH. destruct (p (g x)); reflexivity.
Qed.

Lemma all_squares_loops :
  all_squares = flat_map (fun row => map (square row) (range 8)) (range 8).
Proof. reflexivity. Qed.

(** The two loops of [get_valid_moves] keep, in their order, the squares
    that [is_valid_move] accepts. *)
Lemma get_valid_moves_filter self position board :
  board_ok board = true -> is_within_bounds position = true ->
  get_valid_moves self position board
  = Ok (List.filter (judged_legal self position board) all_squares).
Proof.
  intros Hb Hp. unfold get_valid_moves.
  rewrite (for_each_flat_map (range 8)
             (fun row =>
                flat_map (fun col =>
                            if judged_legal self position board (square row col)
                            then [square row col] else [])
                         (range 8))).
  - rewrite app_nil_l, all_squares_loops, filter_flat_map. f_equal.
    apply flat_map_ext. intros row. apply flat_map_if_filter.
  - intros row acc Hrow. apply in_range_8 in Hrow.
    apply for_each_flat_map. intros col acc' Hcol. apply in_range_8 in Hcol.
    destruct (chr_square row col Hcol) as (file & Hfile & Hname).
    rewrite Hfile. cbn [bind]. rewrite Hname.
    destruct (is_valid_move_returns self board position (square row col) Hb Hp
                (square_in_bounds row col Hrow Hcol)) as (r & Hr).
    unfold judged_legal. rewrite Hr. cbn [bind].
    destruct r; [reflexivity | rewrite app_nil_r; reflexivity].
Qed.

Lemma judged_legal_spec self position board s :
  judged_legal self position board s = true
  <-> is_valid_move self position s board = Ok true.
Proof.
  unfold judged_legal.
  destruct (is_valid_move self position s board) as [[]| |];
    split; congruence.
Qed.

(** X13.  The advisory list.  For a square of a well-shaped board,
    [get_valid_moves] returns, without raising, the squares that
    [is_valid_move] judges legal for the piece from that square: all of
    them, nothing else, each once, in the order rank 8 to rank 1 and file
    a to file h. *)
Theorem get_valid_moves_lists_legal_squares self position board :
  board_ok board = true -> is_within_bounds position = true ->
  exists l,
    get_valid_moves self position board = Ok l
    /\ l = List.filter (judged_legal self position board) all_squares
    /\ NoDup l
    /\ forall s, In s l <-> is_valid_move self position s board = Ok true.
Proof.
  intros Hb Hp. eexists. split; [apply get_valid_moves_filter; assumption|].
  split; [reflexivity|]. split.
  - apply NoDup_ListNoDup, List.NoDup_filter, NoDup_ListNoDup.
    apply (bool_decide_unpack _). vm_compute. exact I.
  - intros s. rewrite List.filter_In, judged_legal_spec. split; [tauto|].
    intros Hv. split; [|exact Hv].
    apply in_bounds_all_squares.
    destruct (is_within_bounds s) eqn:Hs; [reflexivity|].
    apply notation_to_index_None in Hs.
    rewrite (is_valid_move_unpack self position s board) in Hv by auto.
    discriminate.
Qed.

Lemma get_valid_moves_lists_legal_squares_witness :
  exists l,
    get_valid_moves (Piece_init "P") "e2" Board_init = Ok l
    /\ l = List.filter (judged_legal (Piece_init "P") "e2" Board_init)
             all_squares
    /\ NoDup l
    /\ forall s, In s l
         <-> is_valid_move (Piece_init "P") "e2" s Board_init = Ok true.
Proof.
  apply (get_valid_moves_lists_legal_squares (Piece_init "P") "e2" Board_init);
    reflexivity.
Defined.

(** X14.  The advisory list on a malformed square.  For a string that is
    no square of the board [get_valid_moves] raises [TypeError], at the
    first destination it tries, for every piece and every grid. *)
Theorem get_valid_moves_malformed_raises self position board :
  is_within_bounds position = false ->
  get_valid_moves self position board = Raise TypeError.
Proof.
  intros Hp. apply notation_to_index_None in Hp.
  unfold get_valid_moves, range. cbn [seq map for_each].
  change (Py.chr (Z.of_nat 0 + Py.ord "a")) with (Ok "a"). cbn [bind].
  rewrite (is_valid_move_unpack self position _ board) by auto.
  reflexivity.
Qed.

Lemma get_valid_moves_malformed_raises_witness :
  get_valid_moves (Piece_init "N") "b9" Board_init = Raise TypeError.
Proof.
  apply (get_valid_moves_malformed_raises (Piece_init "N") "b9" Board_init).
  reflexivity.
Defined.

Lemma filter_none {A} (p : A -> bool) l :
  (forall x, p x = false) -> List.filter p l = [].
Proof.
  intros H. induction l as [|x l IH]; simpl; [reflexivity|].
  rewrite H. exact IH.
Qed.

(** X15.  The advisory list of an empty square.  Asked with the empty
    marker as the piece, [get_valid_moves] returns the empty list: no
    destination is legal for it. *)
Theorem get_valid_moves_of_empty_square position board :
  board_ok board = true -> is_within_bounds position = true ->
  get_valid_moves (Piece_init " ") position board = Ok [].
Proof.
  intros Hb Hp. rewrite get_valid_moves_filter by assumption.
  rewrite filter_none; [reflexivity|].
  intros s. destruct (judged_legal _ _ _ s) eqn:E; [|reflexivity].
  apply judged_legal_spec in E. destruct (is_valid_move_empty _ _ _ E).
Qed.

Lemma get_valid_moves_of_empty_square_witness :
  get_valid_moves (Piece_init " ") "e4" Board_init = Ok [].
Proof.
  apply (get_valid_moves_of_empty_square "e4" Board_init); reflexivity.
Defined.

(** X16.  The advisory list and the move protocol agree.  In an unfinished
    game, for a square that holds a piece of the side to move, the list
    [get_valid_moves] returns for that piece is exactly the set of
    destinations for which [make_move] from that square returns [True]. *)
Theorem valid_moves_are_the_accepted_moves self a piece :
  board_ok (_board self) = true ->
  GameState_eqb (get_game_state self) UNFINISHED = true ->
  is_within_bounds a = true ->
  get_piece_at (_board self) a = Ok piece ->
  out_of_turn self piece = false ->
  exists l,
    get_valid_moves (Piece_init piece) a (_board self) = Ok l
    /\ forall b, In b l <-> exists self', make_move self a b = Ok (true, self').
Proof.
  intros Hb Hs Ha Hp Hturn.
  eexists. split; [apply get_valid_moves_filter; assumption|].
  intros b. rewrite List.filter_In, judged_legal_spec. split.
  - intros [Hin Hv]. apply in_bounds_all_squares in Hin.
    destruct (make_move_legal self a b piece Hb Hs Ha Hin Hp Hturn Hv)
      as (board' & _ & Hm).
    eauto.
  - intros (self' & Hm).
    destruct (make_move_cases self a b Hb)
      as [Hf | (piece' & fx & fy & tx & ty & _ & Hia & Hic & Hp' & _ & _ & Hv & _)].
    { rewrite Hf in Hm. discriminate. }
    rewrite (get_piece_at_cell _ _ _ _ Hia), Hp' in Hp. injection Hp as ->.
    split; [|exact Hv].
    apply in_bounds_all_squares, is_within_bounds_index. eauto.
Qed.

Lemma valid_moves_are_the_accepted_moves_witness :
  exists l,
    get_valid_moves (Piece_init "K") "e3" (_board hill_before) = Ok l
    /\ forall b, In b l
         <-> exists self', make_move hill_before "e3" b = Ok (true, self').
Proof.
  apply (valid_moves_are_the_accepted_moves hill_before "e3" "K");
    reflexivity.
Defined.

(** ** Further properties of the move protocol *)

(** X17.  Malformed notation is refused.  When the origin or the
    destination is no square of the board, [make_move] returns [False] and
    leaves the object as it was, whatever the object. *)
Theorem malformed_notation_refused self a b :
  is_within_bounds a = false \/ is_within_bounds b = false ->
  make_move self a b = Ok (false, self).
Proof.
  intros H. unfold make_move.
  destruct (negb (GameState_eqb (_game_state self) UNFINISHED));
    [reflexivity|].
  destruct H as [-> | ->]; simpl; [reflexivity|].
  rewrite orb_true_r. reflexivity.
Qed.

Lemma malformed_notation_refused_witness :
  make_move ChessVar_init "e2" "e44" = Ok (false, ChessVar_init).
Proof.
  apply (malformed_notation_refused ChessVar_init "e2" "e44").
  right. reflexivity.
Defined.

Lemma side_out_of_turn self piece :
  side_of piece = Some (opponent (_turn self)) -> out_of_turn self piece = true.
Proof.
  unfold side_of, out_of_turn, Py.isupper, Py.islower.
  destruct (Py.has_upper piece), (Py.has_lower piece), (_turn self);
    simpl; congruence.
Qed.

Lemma side_in_turn self piece :
  In piece symbols -> piece <> " " -> out_of_turn self piece = false ->
  side_of piece = Some (_turn self).
Proof.
  unfold symbols, out_of_turn. intros Hp Hne.
  split_in Hp; try congruence; destruct (_turn self); simpl;
    intros H; try discriminate; reflexivity.
Qed.

(** X18.  Out of turn.  A call whose origin holds a piece of the side that
    is not to move returns [False] and leaves the object as it was. *)
Theorem out_of_turn_refused self a b piece :
  get_piece_at (_board self) a = Ok piece ->
  side_of piece = Some (opponent (get_turn self)) ->
  make_move self a b = Ok (false, self).
Proof.
  intros Hp Hside. unfold make_move, get_turn in *.
  destruct (negb (GameState_eqb (_game_state self) UNFINISHED));
    [reflexivity|].
  destruct (negb (is_within_bounds a) || negb (is_within_bounds b));
    [reflexivity|].
  rewrite Hp. cbn [bind].
  destruct (negb (Py.truthy piece)); [reflexivity|].
  fold (out_of_turn self piece).
  rewrite (side_out_of_turn self piece Hside). reflexivity.
Qed.

Lemma out_of_turn_refused_witness :
  make_move ChessVar_init "e7" "e5" = Ok (false, ChessVar_init).
Proof.
  apply (out_of_turn_refused ChessVar_init "e7" "e5" "p"); reflexivity.
Defined.

(** X19.  Who moves, and onto what.  After a call that returns [True], the
    piece that was moved belonged to the side that was to move, and the
    destination was empty or held a piece of the other side: a side never
    moves the other side's pieces and never takes its own. *)
Theorem accepted_move_is_the_movers self a b self' :
  board_ok (_board self) = true ->
  make_move self a b = Ok (true, self') ->
  exists piece target,
    get_piece_at (_board self) a = Ok piece
    /\ side_of piece = Some (get_turn self)
    /\ get_piece_at (_board self) b = Ok target
    /\ (target = " " \/ side_of target = Some (opponent (get_turn self))).
Proof.
  intros Hb Hm.
  destruct (make_move_cases self a b Hb)
    as [Hf | (piece & fx & fy & tx & ty & _ & Hia & Hic & Hp & Hsym & Hturn & Hv & _)].
  { rewrite Hf in Hm. discriminate. }
  assert (Hc : is_within_bounds b = true)
    by (apply is_within_bounds_index; eauto).
  destruct (in_bounds_symbol _ b Hb Hc) as (target & Ht & Htsym).
  apply symbols_cases in Hsym, Htsym.
  assert (Hne : piece <> " ").
  { intros ->. destruct (is_valid_move_empty _ _ _ Hv). }
  pose proof (side_in_turn self piece Hsym Hne Hturn) as Hside.
  exists piece, target. unfold get_turn.
  rewrite (get_piece_at_cell _ _ _ _ Hia).
  repeat split; auto.
  assert (Hown : own_capture piece target = false).
  { revert Hv. unfold is_valid_move. rewrite Hia, Hic, Ht. cbn [bind].
    fold (own_capture (_piece_type (Piece_init piece)) target).
    change (_piece_type (Piece_init piece)) with piece.
    destruct (own_capture piece target); [discriminate|reflexivity]. }
  destruct (own_capture_symbols piece target Hsym Htsym Hown)
    as [-> | [-> | (c & H1 & H2)]]; [congruence | auto |].
  right. congruence.
Qed.

Lemma accepted_move_is_the_movers_witness :
  exists piece target,
    get_piece_at (_board raid_before) "f7" = Ok piece
    /\ side_of piece = Some (get_turn raid_before)
    /\ get_piece_at (_board raid_before) "e8" = Ok target
    /\ (target = " "
        \/ side_of target = Some (opponent (get_turn raid_before))).
Proof.
  apply (accepted_move_is_the_movers raid_before "f7" "e8" raid_won);
    reflexivity.
Defined.

(** X20.  A game never faults.  Whatever strings are passed, in whatever
    number, to [make_move] on a new game, every call returns a boolean and
    the board stays a grid of eight rows of eight symbols. *)
Theorem game_never_faults moves :
  exists rs self,
    play ChessVar_init moves = Ok (rs, self)
    /\ length rs = length moves
    /\ board_ok (_board self) = true.
Proof. apply play_returns. reflexivity. Qed.

(** X21.  One king a side.  In a game played from the start no side ever
    has two kings: two squares that hold the king of one side are the same
    square. *)
Theorem one_king_per_side moves rs self c s1 s2 :
  play ChessVar_init moves = Ok (rs, self) ->
  get_piece_at (_board self) s1 = Ok (king_symbol c) ->
  get_piece_at (_board self) s2 = Ok (king_symbol c) ->
  s1 = s2.
Proof.
  intros Hplay H1 H2.
  pose proof (play_kings_inv moves _ _ _ kings_inv_init Hplay)
    as (Hb & Huniq & _).
  assert (Hidx : forall s v, get_piece_at (_board self) s = Ok v ->
            exists x y, notation_to_index s = Some (x, y)).
  { intros s v H. unfold get_piece_at in H.
    destruct (notation_to_index s) as [[x y]|]; [eauto|discriminate]. }
  destruct (Hidx _ _ H1) as (x1 & y1 & Hi1).
  destruct (Hidx _ _ H2) as (x2 & y2 & Hi2).
  destruct (get_piece_at_grid_get _ s1 _ _ Hb Hi1) as (v1 & Hv1 & Hg1).
  destruct (get_piece_at_grid_get _ s2 _ _ Hb Hi2) as (v2 & Hv2 & Hg2).
  assert (v1 = king_symbol c) by congruence.
  assert (v2 = king_symbol c) by congruence. subst v1 v2.
  eapply index_nat_inj; eauto.
Qed.


Lemma one_king_per_side_witness : "e1" = "e1".
Proof.
  apply (one_king_per_side queen_raid (repeat true 6) raid_before WHITE
           "e1" "e1"); reflexivity.
Defined.

(** ** The game state and the kings *)

Lemma center_in_bounds s : In s center_squares -> is_within_bounds s = true.
Proof.
  unfold center_squares. intros H.
  repeat (destruct H as [<- | H]; [reflexivity|]). destruct H.
Qed.

Lemma str_in_In s l : str_in s l = true <-> In s l.
Proof.
  unfold str_in. rewrite existsb_exists. split.
  - intros (x & Hin & E). apply String.eqb_eq in E. congruence.
  - intros H. exists s. split; [exact H | apply String.eqb_refl].
Qed.

Lemma king_symbol_inj c c' : king_symbol c = king_symbol c' -> c = c'.
Proof. destruct c, c'; simpl; congruence. Qed.

Lemma king_piece_cases piece c :
  piece = king_symbol c ->
  String.eqb piece "k" = Color_eqb c BLACK
  /\ String.eqb piece "K" = Color_eqb c WHITE.
Proof. intros ->. destruct c; split; reflexivity. Qed.

(** An accepted move keeps [state_inv]. *)
Lemma make_move_state_inv self a b r self' :
  board_ok (_board self) = true ->
  state_inv self -> make_move self a b = Ok (r, self') -> state_inv self'.
Proof.
  intros Hb Hinv Hm.
  destruct (make_move_cases self a b Hb)
    as [Hf | (piece & fx & fy & tx & ty & Hs & Hia & Hic & Hp & Hsym & _ & Hv & Ht)].
  { rewrite Hf in Hm. injection Hm as <- <-. exact Hinv. }
  rewrite Ht in Hm. injection Hm as <- <-.
  unfold state_inv in Hinv. rewrite Hs in Hinv.
  destruct Hinv as (HKW & HKB & HCW & HCB).
  assert (Ha : is_within_bounds a = true)
    by (apply is_within_bounds_index; eauto).
  assert (Hc : is_within_bounds b = true)
    by (apply is_within_bounds_index; eauto).
  assert (Hpa : get_piece_at (_board self) a = Ok piece).
  { rewrite (get_piece_at_cell _ _ _ _ Hia). exact Hp. }
  assert (Hab : a <> b).
  { intros <-. eapply is_valid_move_same_square; eauto. }
  set (board' := grid_set _ _ _ _).
  assert (Hb' : board_ok board' = true).
  { apply board_ok_set; [apply board_ok_set; assumption | reflexivity]. }
  assert (Hread : forall s, is_within_bounds s = true ->
            get_piece_at board' s
            = if String.eqb s a then Ok " "
              else if String.eqb s b then Ok piece
              else get_piece_at (_board self) s).
  { intros s Hs'. apply (moved_grid_read _ a b fx fy tx ty piece s); auto. }
  assert (Hdest : get_piece_at board' b = Ok piece).
  { rewrite (Hread b Hc). destruct (String.eqb_spec b a); [congruence|].
    rewrite String.eqb_refl. reflexivity. }
  (* a king of the old board that was not taken is on the new board *)
  assert (Hkeep : forall c s, is_within_bounds s = true ->
            get_piece_at (_board self) s = Ok (king_symbol c) ->
            s <> b -> king_on_board board' c).
  { intros c s Hs' Hk Hsb.
    destruct (String.eqb_spec s a) as [->|Hsa].
    - exists b. split; [exact Hc|]. rewrite Hdest. congruence.
    - exists s. split; [exact Hs'|]. rewrite (Hread s Hs').
      destruct (String.eqb_spec s a); [congruence|].
      destruct (String.eqb_spec s b); [congruence|]. exact Hk. }
  (* a king on the new board came from the old one, or is the piece moved *)
  assert (Hfrom : forall c s, is_within_bounds s = true ->
            get_piece_at board' s = Ok (king_symbol c) ->
            (s = b /\ piece = king_symbol c)
            \/ (s <> b /\ get_piece_at (_board self) s = Ok (king_symbol c))).
  { intros c s Hs' Hk. rewrite (Hread s Hs') in Hk.
    destruct (String.eqb_spec s a) as [->|Hsa].
    { injection Hk as E. destruct (king_symbol_not_empty c E). }
    destruct (String.eqb_spec s b) as [->|Hsb].
    - left. split; congruence.
    - right. auto. }
  unfold state_inv. rewrite win_checks_board. fold board'.
  unfold win_checks.
  destruct (String.eqb piece "k" && str_in b center_squares) eqn:Ek.
  { apply andb_true_iff in Ek as [E1 E2].
    apply String.eqb_eq in E1. apply str_in_In in E2. subst piece.
    cbn [_game_state]. split.
    - exists b. auto.
    - left. exists b. auto. }
  destruct (String.eqb piece "K" && str_in b center_squares) eqn:EK.
  { apply andb_true_iff in EK as [E1 E2].
    apply String.eqb_eq in E1. apply str_in_In in E2. subst piece.
    cbn [_game_state]. split.
    - exists b. auto.
    - left. exists b. auto. }
  cbn [_game_state]. rewrite Hs.
  destruct (king_exists board' WHITE) eqn:EW; cbn [negb].
  - apply (king_exists_on_board _ _ Hb') in EW.
    destruct (king_exists board' BLACK) eqn:EB; cbn [negb].
    + apply (king_exists_on_board _ _ Hb') in EB.
      assert (Hnc : forall c, ~ king_on_center (_board self) c ->
                ~ king_on_center board' c).
      { intros c Hold (s & Hin & Hk).
        pose proof (center_in_bounds s Hin) as Hs'.
        destruct (Hfrom c s Hs' Hk) as [[-> Hpk] | [_ Hk']].
        - apply str_in_In in Hin. rewrite Hin, !andb_true_r in Ek, EK.
          destruct (king_piece_cases piece c Hpk) as [E1 E2].
          destruct c; simpl in *; congruence.
        - apply Hold. exists s. auto. }
      repeat split; auto.
    + split; [exact EW|]. right.
      intros HB. apply (king_exists_on_board _ _ Hb') in HB. congruence.
  - assert (HnW : ~ king_on_board board' WHITE).
    { intros HW. apply (king_exists_on_board _ _ Hb') in HW. congruence. }
    split; [|right; exact HnW].
    destruct HKB as (sk & Hsk & Hk).
    destruct (String.eqb_spec sk b) as [->|Hskb];
      [|exact (Hkeep BLACK sk Hsk Hk Hskb)].
    exfalso. apply HnW.
    destruct HKW as (sw & Hsw & Hw).
    apply (Hkeep WHITE sw Hsw Hw).
    intros ->. rewrite Hk in Hw. discriminate.
Qed.

Lemma play_state_inv moves : forall self rs self',
  board_ok (_board self) = true -> state_inv self ->
  play self moves = Ok (rs, self') -> state_inv self'.
Proof.
  induction moves as [|[a b] rest IH]; intros self rs self' Hb Hinv Hplay.
  - simpl in Hplay. injection Hplay as <- <-. exact Hinv.
  - simpl in Hplay.
    destruct (make_move self a b) as [[r g]| |] eqn:Hm; simpl in Hplay;
      try discriminate.
    destruct (play g rest) as [[rs' g']| |] eqn:Hrest; simpl in Hplay;
      try discriminate.
    injection Hplay as <- <-.
    eapply IH; [| |exact Hrest].
    + eapply make_move_board_ok; eauto.
    + eapply make_move_state_inv; eauto.
Qed.

Lemma state_inv_init : state_inv ChessVar_init.
Proof.
  unfold state_inv. simpl. repeat split.
  - exists "e1". split; reflexivity.
  - exists "e8". split; reflexivity.
  - intros (s & Hin & Hk). unfold center_squares in Hin.
    repeat (destruct Hin as [<- | Hin]; [discriminate|]). destruct Hin.
  - intros (s & Hin & Hk). unfold center_squares in Hin.
    repeat (destruct Hin as [<- | Hin]; [discriminate|]). destruct Hin.
Qed.

(** X22.  The game state tells where the kings are.  In a game played
    from the start: the state is [UNFINISHED] exactly when both kings are
    on the board and neither stands on d4, e4, d5, e5; when a side has won,
    its own king is on the board, and either stands on a center square or
    the other king is gone. *)
Theorem game_state_reflects_kings moves rs self :
  play ChessVar_init moves = Ok (rs, self) ->
  (get_game_state self = UNFINISHED <->
     king_on_board (_board self) WHITE /\ king_on_board (_board self) BLACK
     /\ ~ king_on_center (_board self) WHITE
     /\ ~ king_on_center (_board self) BLACK)
  /\ (forall c, get_game_state self = won c ->
        king_on_board (_board self) c
        /\ (king_on_center (_board self) c
            \/ ~ king_on_board (_board self) (opponent c))).
Proof.
  intros Hplay.
  pose proof (play_state_inv moves ChessVar_init rs self eq_refl
                state_inv_init Hplay) as Hinv.
  unfold state_inv, get_game_state in *.
  destruct (_game_state self); split.
  - tauto.
  - intros [] H; discriminate.
  - split; [discriminate|]. intros (_ & HB & HC & _). tauto.
  - intros [] H; [exact Hinv | discriminate].
  - split; [discriminate|]. intros (HW & _ & _ & HC). tauto.
  - intros [] H; [discriminate | exact Hinv].
Qed.

Lemma game_state_reflects_kings_witness :
  (get_game_state hill_won = UNFINISHED <->
     king_on_board (_board hill_won) WHITE
     /\ king_on_board (_board hill_won) BLACK
     /\ ~ king_on_center (_board hill_won) WHITE
     /\ ~ king_on_center (_board hill_won) BLACK)
  /\ (forall c, get_game_state hill_won = won c ->
        king_on_board (_board hill_won) c
        /\ (king_on_center (_board hill_won) c
            \/ ~ king_on_board (_board hill_won) (opponent c))).
Proof.
  apply (game_state_reflects_kings hill_walk (repeat true 7) hill_won).
  reflexivity.
Defined.

(** ** Turns and material *)

Lemma make_move_turn_unfinished self a b r self' :
  board_ok (_board self) = true ->
  make_move self a b = Ok (r, self') ->
  _game_state self' = UNFINISHED ->
  _turn self' = if r then opponent (_turn self) else _turn self.
Proof.
  intros Hb Hm Hs.
  destruct (make_move_cases self a b Hb)
    as [Hf | (piece & fx & fy & tx & ty & _ & _ & _ & _ & _ & _ & _ & Ht)].
  - rewrite Hf in Hm. injection Hm as <- <-. reflexivity.
  - rewrite Ht in Hm. injection Hm as <- <-.
    rewrite win_checks_turn, Hs. reflexivity.
Qed.

Lemma play_unfinished_before moves self rs self' :
  play self moves = Ok (rs, self') ->
  _game_state self' = UNFINISHED -> _game_state self = UNFINISHED.
Proof.
  intros Hplay Hs.
  destruct (GameState_eqb (get_game_state self) UNFINISHED) eqn:E.
  - unfold get_game_state in E. destruct (_game_state self); simpl in E;
      congruence.
  - rewrite (finished_game_refuses self moves E) in Hplay.
    injection Hplay as _ <-.
    unfold get_game_state in E. rewrite Hs in E. discriminate.
Qed.

Lemma count_true_cons r rs :
  count_true (r :: rs) = if r then S (count_true rs) else count_true rs.
Proof. unfold count_true. simpl. destruct r; reflexivity. Qed.

Lemma opponent_involutive c : opponent (opponent c) = c.
Proof. destruct c; reflexivity. Qed.

(** X23.  The players alternate.  After any sequence of calls that leaves
    the game unfinished, the side to move is the side that was to move
    before if the number of calls that returned [True] is even, and the
    other side if it is odd.  In a game from the start white is to move
    after an even number of accepted moves, black after an odd number. *)
Theorem players_alternate moves : forall self rs self',
  board_ok (_board self) = true ->
  play self moves = Ok (rs, self') ->
  get_game_state self' = UNFINISHED ->
  get_turn self'
  = if Nat.even (count_true rs) then get_turn self
    else opponent (get_turn self).
Proof.
  unfold get_game_state, get_turn.
  induction moves as [|[a b] rest IH]; intros self rs self' Hb Hplay Hs.
  - simpl in Hplay. injection Hplay as <- <-. reflexivity.
  - simpl in Hplay.
    destruct (make_move self a b) as [[r g]| |] eqn:Hm; simpl in Hplay;
      try discriminate.
    destruct (play g rest) as [[rs' g']| |] eqn:Hrest; simpl in Hplay;
      try discriminate.
    injection Hplay as <- <-.
    pose proof (make_move_board_ok _ _ _ _ _ Hb Hm) as Hbg.
    pose proof (play_unfinished_before _ _ _ _ Hrest Hs) as Hsg.
    rewrite (IH g rs' g' Hbg Hrest Hs).
    rewrite (make_move_turn_unfinished self a b r g Hb Hm Hsg).
    rewrite count_true_cons. destruct r; [|reflexivity].
    rewrite Nat.even_succ, <- Nat.negb_even.
    destruct (Nat.even (count_true rs')); simpl;
      rewrite ?opponent_involutive; reflexivity.
Qed.

Lemma players_alternate_witness :
  get_turn raid_before
  = if Nat.even (count_true (repeat true 6)) then get_turn ChessVar_init
    else opponent (get_turn ChessVar_init).
Proof.
  apply (players_alternate queen_raid ChessVar_init (repeat true 6)
           raid_before); reflexivity.
Defined.

Lemma row_count_insert (row : list string) j w old v :
  row !! j = Some old ->
  (length (List.filter (String.eqb v) (<[j := w]> row))
   + (if String.eqb v old then 1 else 0)
   = length (List.filter (String.eqb v) row)
     + (if String.eqb v w then 1 else 0))%nat.
Proof.
  revert j. induction row as [|x row IH]; intros j Hj; [discriminate|].
  destruct j as [|j]; simpl in *.
  - injection Hj as ->.
    destruct (String.eqb v old), (String.eqb v w); simpl; lia.
  - specialize (IH j Hj). destruct (String.eqb v x); simpl; lia.
Qed.

Lemma grid_count_insert (board : Grid) i row row' v :
  board !! i = Some row ->
  (count_symbol v (<[i := row']> board)
   + length (List.filter (String.eqb v) row)
   = count_symbol v board
     + length (List.filter (String.eqb v) row'))%nat.
Proof.
  unfold count_symbol.
  revert i. induction board as [|x board IH]; intros i Hi; [discriminate|].
  destruct i as [|i]; simpl in *.
  - injection Hi as ->. lia.
  - specialize (IH i Hi). lia.
Qed.

(** Writing one square changes the count of a symbol by what leaves and
    what comes. *)
Lemma count_grid_set board i j w old v :
  grid_get board i j = Some old ->
  (count_symbol v (grid_set board i j w) + (if String.eqb v old then 1 else 0)
   = count_symbol v board + (if String.eqb v w then 1 else 0))%nat.
Proof.
  unfold grid_get, grid_set. intros H.
  destruct (board !! i) as [row|] eqn:Hrow; [|discriminate].
  pose proof (grid_count_insert board i row (<[j := w]> row) v Hrow).
  pose proof (row_count_insert row j w old v H). lia.
Qed.

(** X24.  Material.  An accepted move creates no piece and loses none but
    the one it takes: for every symbol but the empty marker, the number of
    squares that hold it after the call is the number before, less one if
    the destination held that symbol. *)
Theorem move_changes_material_by_capture self a b self' target v :
  board_ok (_board self) = true ->
  make_move self a b = Ok (true, self') ->
  get_piece_at (_board self) b = Ok target ->
  v <> " " ->
  (count_symbol v (_board self') + (if String.eqb v target then 1 else 0)
   = count_symbol v (_board self))%nat.
Proof.
  intros Hb Hm Ht Hv.
  destruct (make_move_cases self a b Hb)
    as [Hf | (piece & fx & fy & tx & ty & _ & Hia & Hic & Hp & Hsym & _ & Hval & Hmk)].
  { rewrite Hf in Hm. discriminate. }
  rewrite Hmk in Hm. injection Hm as <-. rewrite win_checks_board.
  destruct (notation_to_index_shape _ _ _ Hia) as [Hf _].
  destruct (cell_grid_get _ fx fy Hb Hf) as (p' & Hgf & Hp' & _).
  assert (p' = piece) by congruence. subst p'.
  destruct (get_piece_at_grid_get _ b tx ty Hb Hic) as (t' & Ht' & Hgt).
  assert (t' = target) by congruence. subst t'.
  assert (Hne : (Z.to_nat tx, Z.to_nat ty) <> (Z.to_nat fx, Z.to_nat fy)).
  { intros E.
    assert (b = a) by (eapply index_nat_inj; eauto). subst b.
    apply (is_valid_move_same_square (_board self) a piece Hb);
      [rewrite (get_piece_at_cell _ _ _ _ Hia); exact Hp | exact Hval]. }
  pose proof (count_grid_set (_board self) _ _ piece target v Hgt) as H1.
  assert (Hgf1 : grid_get (grid_set (_board self) (Z.to_nat tx) (Z.to_nat ty)
                             piece) (Z.to_nat fx) (Z.to_nat fy) = Some piece).
  { rewrite grid_get_set_ne by exact Hne. exact Hgf. }
  pose proof (count_grid_set _ _ _ " " piece v Hgf1) as H2.
  destruct (String.eqb_spec v " ") as [->|_]; [congruence|].
  lia.
Qed.

Lemma move_changes_material_by_capture_witness :
  (count_symbol "k" (_board raid_won)
   + (if String.eqb "k" "k" then 1 else 0)
   = count_symbol "k" (_board raid_before))%nat.
Proof.
  apply (move_changes_material_by_capture raid_before "f7" "e8" raid_won
           "k" "k"); try reflexivity.
  discriminate.
Defined.

(** ** Further properties of the path check *)

Lemma between_reverse fx fy tx ty k :
  on_line fx fy tx ty ->
  span tx ty fx fy = span fx fy tx ty
  /\ between tx ty fx fy k = between fx fy tx ty (span fx fy tx ty - k).
Proof.
  unfold on_line, span, between. intros Hl.
  split; [lia|].
  replace (fx - tx) with (- (tx - fx)) by lia.
  replace (fy - ty) with (- (ty - fy)) by lia.
  destruct (sgn_step_cases (tx - fx)) as [[? E1] | [[? E1] | [? E1]]];
  destruct (sgn_step_cases (ty - fy)) as [[? E2] | [[? E2] | [? E2]]];
  destruct (sgn_step_cases (- (tx - fx))) as [[? E3] | [[? E3] | [? E3]]];
  destruct (sgn_step_cases (- (ty - fy))) as [[? E4] | [[? E4] | [? E4]]];
    try lia; rewrite E1, E2, E3, E4; f_equal; lia.
Qed.

(** X25.  The path check does not depend on the direction.  Between two
    squares of a common rank, file or diagonal, the path from the first to
    the second is judged clear exactly when the path from the second to
    the first is. *)
Theorem path_is_clear_symmetric board fx fy tx ty :
  board_ok board = true ->
  on_board fx fy -> on_board tx ty -> on_line fx fy tx ty ->
  _path_is_clear fx fy tx ty board = _path_is_clear tx ty fx fy board.
Proof.
  intros Hb Hf Ht Hl.
  assert (Hl' : on_line tx ty fx fy).
  { unfold on_line in *. lia. }
  destruct (path_is_clear_returns board fx fy tx ty Hb Hf Ht Hl)
    as (r & Hr & Hspec).
  destruct (path_is_clear_returns board tx ty fx fy Hb Ht Hf Hl')
    as (r' & Hr' & Hspec').
  rewrite Hr, Hr'. f_equal.
  apply Bool.eq_true_iff_eq. rewrite Hspec, Hspec'.
  destruct (between_reverse fx fy tx ty 0 Hl) as [Hspan _].
  split; intros Hall k Hk.
  - destruct (between_reverse fx fy tx ty k Hl) as [_ ->].
    apply Hall. lia.
  - destruct (between_reverse fx fy tx ty (span fx fy tx ty - k) Hl)
      as [_ E].
    replace (span fx fy tx ty - (span fx fy tx ty - k)) with k in E by lia.
    rewrite <- E. apply Hall. lia.
Qed.

Lemma path_is_clear_symmetric_witness :
  _path_is_clear 7 3 3 7 (_board hill_before)
  = _path_is_clear 3 7 7 3 (_board hill_before).
Proof.
  apply (path_is_clear_symmetric (_board hill_before) 7 3 3 7).
  - reflexivity.
  - unfold on_board. lia.
  - unfold on_board. lia.
  - unfold on_line. simpl. lia.
Defined.

(** X26.  The path check always stops.  For all integer arguments and
    every grid, well-shaped or not, the loop of [_path_is_clear] ends
    within nine iterations: the call returns or raises, and a larger
    allowance of iterations gives the same outcome. *)
Theorem path_is_clear_always_stops fx fy tx ty board :
  _path_is_clear fx fy tx ty board <> OutOfFuel
  /\ forall fuel, (9 <= fuel)%nat ->
       _path_is_clear_fuel fuel fx fy tx ty board
       = _path_is_clear fx fy tx ty board.
Proof. exact (path_fuel_enough fx fy tx ty board). Qed.

Lemma get_piece_at_raises_type_error board s e :
  board_ok board = true -> get_piece_at board s = Raise e -> e = TypeError.
Proof.
  intros Hb H.
  destruct (notation_to_index s) as [[x y]|] eqn:Hi.
  - destruct (get_piece_at_grid_get board s x y Hb Hi) as (v & Hv & _).
    congruence.
  - unfold get_piece_at in H. rewrite Hi in H. congruence.
Qed.

Lemma chr_near_board y :
  -1 <= y <= 8 -> exists file, Py.chr (y + Py.ord "a") = Ok file.
Proof.
  intros Hy. unfold Py.chr. change (Py.ord "a") with 97.
  destruct (Z.ltb_spec (y + 97) 0); [lia|].
  destruct (Z.ltb_spec 1114111 (y + 97)); [lia|].
  destruct (Z.ltb_spec (y + 97) 256); [|lia]. simpl. eauto.
Qed.

(** A walk that can never meet its destination answers [False], raises
    [TypeError], or runs out of fuel. *)
Lemma path_walk_off_line board sx sy tx ty :
  board_ok board = true ->
  -1 <= sx <= 1 -> -1 <= sy <= 1 ->
  forall fuel x y,
    -1 <= x <= 8 -> -1 <= y <= 8 ->
    (forall k, 0 <= k -> (x + k * sx, y + k * sy) <> (tx, ty)) ->
    path_walk fuel x y sx sy tx ty board = Ok false
    \/ path_walk fuel x y sx sy tx ty board = Raise TypeError
    \/ path_walk fuel x y sx sy tx ty board = OutOfFuel.
Proof.
  intros Hb Hsx Hsy.
  induction fuel as [|fuel IH]; intros x y Hx Hy Hmiss.
  all: assert (Hat : (x =? tx) && (y =? ty) = false).
  1,3: pose proof (Hmiss 0 ltac:(lia)) as H0;
       rewrite !Z.mul_0_l, !Z.add_0_r in H0;
       destruct (Z.eqb_spec x tx), (Z.eqb_spec y ty); simpl;
       try reflexivity; subst; congruence.
  - simpl. rewrite Hat. simpl. auto.
  - simpl. rewrite Hat. simpl.
    destruct (chr_near_board y Hy) as (file & Hfile). rewrite Hfile. simpl.
    destruct (get_piece_at board (file ++ Py.str (8 - x))) as [v|e|] eqn:Hget;
      simpl.
    + destruct (String.eqb v " "); simpl; [|auto].
      pose proof (walk_square_on_board _ _ _ _ _ Hfile Hget) as [? ?].
      apply IH; [lia | lia |].
      intros k Hk. specialize (Hmiss (k + 1) ltac:(lia)).
      intros E. apply Hmiss. rewrite <- E. f_equal; lia.
    + rewrite (get_piece_at_raises_type_error _ _ _ Hb Hget). auto.
    + auto.
Qed.

(** X27.  The path check off a line.  Between two squares of the board
    that share no rank, file or diagonal, [_path_is_clear] never answers
    [True]: the walk misses its destination, and either stops at the first
    occupied square with [False] or leaves the board and raises
    [TypeError]. *)
Theorem path_is_clear_off_line board fx fy tx ty :
  board_ok board = true ->
  on_board fx fy -> on_board tx ty -> ~ on_line fx fy tx ty ->
  _path_is_clear fx fy tx ty board = Ok false
  \/ _path_is_clear fx fy tx ty board = Raise TypeError.
Proof.
  intros Hb [Hfx Hfy] [Htx Hty] Hl.
  destruct (path_fuel_enough fx fy tx ty board) as [Hstop _].
  unfold _path_is_clear in *. rewrite path_is_clear_fuel_steps in *.
  destruct (path_walk_off_line board (sgn_step (tx - fx))
              (sgn_step (ty - fy)) tx ty Hb) with
    (fuel := path_fuel) (x := fx + sgn_step (tx - fx))
    (y := fy + sgn_step (ty - fy)) as [H | [H | H]]; auto.
  - destruct (sgn_step_cases (tx - fx)) as [[? ->] | [[? ->] | [? ->]]]; lia.
  - destruct (sgn_step_cases (ty - fy)) as [[? ->] | [[? ->] | [? ->]]]; lia.
  - destruct (sgn_step_cases (tx - fx)) as [[? ->] | [[? ->] | [? ->]]]; lia.
  - destruct (sgn_step_cases (ty - fy)) as [[? ->] | [[? ->] | [? ->]]]; lia.
  - intros k Hk E. apply Hl. unfold on_line.
    injection E as Ex Ey.
    destruct (sgn_step_cases (tx - fx)) as [[? E1] | [[? E1] | [? E1]]];
    destruct (sgn_step_cases (ty - fy)) as [[? E2] | [[? E2] | [? E2]]];
      rewrite E1 in Ex; rewrite E2 in Ey; lia.
  - congruence.
Qed.

Lemma path_is_clear_off_line_witness :
  _path_is_clear 7 0 5 4 Board_init = Ok false
  \/ _path_is_clear 7 0 5 4 Board_init = Raise TypeError.
Proof.
  apply (path_is_clear_off_line Board_init 7 0 5 4).
  - reflexivity.
  - unfold on_board. lia.
  - unfold on_board. lia.
  - unfold on_line. simpl. lia.
Defined.

(** ** A pawn on the last rank *)

(** X28.  No promotion, no way on.  A pawn that stands on the last rank
    of its march, row 0 for white and row 7 for black, has no legal move:
    [get_valid_moves] returns the empty list for it. *)
Theorem pawn_on_last_rank_is_stuck board piece a fx fy :
  board_ok board = true -> In piece ["P"; "p"] ->
  notation_to_index a = Some (fx, fy) ->
  fx = (if Py.isupper piece then 0 else 7) ->
  get_valid_moves (Piece_init piece) a board = Ok [].
Proof.
  intros Hb Hp Ha Hrow.
  assert (Hin : is_within_bounds a = true)
    by (apply is_within_bounds_index; eauto).
  rewrite get_valid_moves_filter by assumption.
  rewrite filter_none; [reflexivity|].
  intros s. unfold judged_legal.
  destruct (notation_to_index s) as [[tx ty]|] eqn:Hs.
  2:{ rewrite is_valid_move_unpack by auto. reflexivity. }
  destruct (notation_to_index_shape _ _ _ Hs) as [[Htx Hty] _].
  destruct (get_piece_at_grid_get board s tx ty Hb Hs) as (target & Ht & _).
  rewrite (pawn_branch board piece a s fx fy tx ty target Hb Hp Ha Hs Ht).
  destruct (own_capture piece target); [reflexivity|].
  assert (Hfw : (tx - fx =? (if Py.isupper piece then -1 else 1)) = false).
  { apply Z.eqb_neq. destruct (Py.isupper piece); lia. }
  assert (Hst : (fx =? (if Py.isupper piece then 6 else 1)) = false).
  { apply Z.eqb_neq. destruct (Py.isupper piece); lia. }
  rewrite Hfw, Hst, !andb_false_r. reflexivity.
Qed.

Lemma pawn_on_last_rank_is_stuck_witness :
  get_valid_moves (Piece_init "p") "a1" Board_init = Ok [].
Proof.
  apply (pawn_on_last_rank_is_stuck Board_init "p" "a1" 7 0);
    try reflexivity.
  simpl. tauto.
Defined.

Lemma bounds_agree_with_index_witness :
  is_within_bounds "e2" = true /\ 0 <= 6 <= 7 /\ 0 <= 4 <= 7.
Proof. apply (proj2 (bounds_agree_with_index "e2") 6 4). reflexivity. Defined.

Lemma path_is_clear_always_stops_witness :
  _path_is_clear_fuel 20 0 0 5 3 Board_init = _path_is_clear 0 0 5 3 Board_init.
Proof.
  apply (proj2 (path_is_clear_always_stops 0 0 5 3 Board_init) 20%nat). lia.
Defined.
